(** * NetKet Metropolis sampler: a shallow embedding

    The development follows two source files:
    - [netket/sampler/metropolis.py]: [MetropolisRule],
      [MetropolisSamplerState], [MetropolisSampler] with [_init_state],
      [_reset] and [_sample_next];
    - [netket/sampler/rules/exchange.py]: [ExchangeRule_], its
      [transition], [compute_clusters] and the constructor [ExchangeRule].

    Arrays are lists; a batch of configurations is a list of rows.  Site
    values range over a discrete alphabet of integer quantum numbers and
    are kept in [Z].  A counter is a Python integer or, once it has been
    through the scope of the sweep loop, a 32-bit JAX integer that wraps.
    The floating point type of log-probabilities, the complex output type
    of the machine and the JAX random primitives are an interface
    ([Numeric], [PRNG]): every random draw is a function of an explicit
    key, as it is in JAX. *)

From Stdlib Require Import ZArith QArith Lia.
From stdpp Require Import base list sorting.

Local Open Scope Z_scope.

(** ** Exceptions *)

Inductive exn : Type :=
  | ValueError          (* raised by [ExchangeRule] *)
  | IndexError          (* Python indexing out of range *)
  | ZeroDivisionError   (* Python [int / int] with a zero divisor *)
  | ShapeError.         (* an array shape with a negative dimension *)

Inductive result (A : Type) : Type :=
  | Ok (a : A)
  | Raise (e : exn).
Arguments Ok {A} a.
Arguments Raise {A} e.

Definition bind {A B : Type} (r : result A) (k : A -> result B) : result B :=
  match r with
  | Ok a => k a
  | Raise e => Raise e
  end.

Notation "x <- r ;; k" := (bind r (fun x => k))
  (at level 100, r at next level, right associativity, only parsing).

(** [for x in xs: s = body(x, s)], stopping at the first exception. *)
Fixpoint for_in {S : Type} (xs : list nat) (body : nat -> S -> result S) (s : S)
  : result S :=
  match xs with
  | [] => Ok s
  | x :: xs' => s' <- body x s ;; for_in xs' body s'
  end.

(** Python's [range(a, b)]. *)
Definition range (a b : nat) : list nat := seq a (b - a).

(** ** Array primitives *)

(** [jnp.zeros((rows, cols))]: a negative dimension is refused. *)
Definition jnp_zeros (rows cols : Z) : result (list (list Z)) :=
  if (rows <? 0) || (cols <? 0) then Raise ShapeError
  else Ok (replicate (Z.to_nat rows) (replicate (Z.to_nat cols) 0)).

(** A negative index counts from the end of the axis. *)
Definition normalize_index (n : nat) (i : Z) : Z :=
  if i <? 0 then i + Z.of_nat n else i.

(** [x[i]] on a traced array: the normalised index is clamped into the
    axis (JAX gathers never raise). *)
Definition jnp_getitem {A : Type} (dflt : A) (x : list A) (i : Z) : A :=
  let k := Z.max 0 (Z.min (normalize_index (length x) i) (Z.of_nat (length x) - 1)) in
  nth (Z.to_nat k) x dflt.

(** [jax.ops.index_update(x, i, v)]: an update whose normalised index is
    out of the axis is dropped. *)
Definition index_update {A : Type} (x : list A) (i : Z) (v : A) : list A :=
  let k := normalize_index (length x) i in
  if (0 <=? k) && (k <? Z.of_nat (length x)) then <[Z.to_nat k := v]> x else x.

(** [jnp.where(c, x, y)] along the leading axis ([c] reshaped to
    broadcast over the rows). *)
Definition jnp_where {A : Type} (c : list bool) (x y : list A) : list A :=
  zip_with (fun b xy => if b : bool then fst xy else snd xy) c (zip x y).

(** [c.sum()] of a boolean array. *)
Definition jnp_sum_bool (c : list bool) : Z :=
  foldr (fun b acc => Z.b2z b + acc) 0 c.

(** [σ.sum()] of one configuration. *)
Definition jnp_sum (x : list Z) : Z := foldr Z.add 0 x.

(** ** Counters *)

(** The values of an int32. *)
Definition int32_range (z : Z) : Prop := -2147483648 <= z <= 2147483647.

(** int32 arithmetic wraps around. *)
Definition wrap32 (z : Z) : Z := (z + 2147483648) mod 4294967296 - 2147483648.

(** The value of a counter field: a Python [int], as the dataclass
    declares it and [_init_state] and [_reset] set it, or the int32 scalar
    array that a variable of a [loops.Scope] is after the loop. *)
Inductive counter : Type :=
  | PyInt (z : Z)
  | Int32 (z : Z).

Definition counter_value (c : counter) : Z :=
  match c with
  | PyInt z => z
  | Int32 z => z
  end.

(** A Python float or a JAX float scalar, without rounding. *)
Inductive pyfloat : Type :=
  | Finite (q : Q)
  | Inf
  | NegInf
  | NaN.

(** [a / b] of two Python integers. *)
Definition py_truediv (a b : Z) : result Q :=
  if b =? 0 then Raise ZeroDivisionError else Ok (inject_Z a / inject_Z b)%Q.

(** [a / b] of an int32 array and a Python integer: a JAX division,
    which never raises. *)
Definition jnp_truediv (a b : Z) : pyfloat :=
  if b =? 0 then (if a =? 0 then NaN else if 0 <? a then Inf else NegInf)
  else Finite (inject_Z a / inject_Z b)%Q.

(** [x * 100] of a JAX float scalar. *)
Definition jnp_mul100 (x : pyfloat) : pyfloat :=
  match x with
  | Finite q => Finite (q * inject_Z 100)%Q
  | other => other
  end.

(** ** Numeric and random interfaces *)

Class Numeric : Type := {
  real : Type;                       (* dtype of log-probabilities *)
  complex : Type;                    (* output dtype of the machine *)
  re : complex -> real;              (* [.real] *)
  radd : real -> real -> real;
  rsub : real -> real -> real;
  rmul : real -> real -> real;
  rexp : real -> real;               (* [jnp.exp] *)
  rltb : real -> real -> bool        (* [<], false on incomparable values *)
}.

Class PRNG `{Numeric} : Type := {
  PRNGKey : Type;
  (* [jax.random.split(key, num)[i]] *)
  jax_random_split : PRNGKey -> nat -> nat -> PRNGKey;
  (* [jax.random.uniform(key, shape=(n,))[i]] *)
  jax_random_uniform : PRNGKey -> nat -> nat -> real;
  (* [jax.random.randint(key, shape=(n,), minval, maxval)[i]] *)
  jax_random_randint : PRNGKey -> nat -> Z -> Z -> nat -> Z
}.

(** ** metropolis.py *)

Section Metropolis.
Context `{PRNG}.
Context {PyTree RuleState : Type}.

Definition Batch : Type := list (list Z).

(** The machine: [machine(parameters, σ)], one complex log-amplitude per
    configuration of the batch. *)
Definition Machine : Type := PyTree -> Batch -> list complex.

Record Hilbert : Type := {
  size : Z;
  hilbert_random_state : PRNGKey -> Z -> Batch
}.

Record MetropolisSamplerState : Type := {
  σ : Batch;
  rng : PRNGKey;
  rule_state : option RuleState;
  n_samples : Z;
  n_accepted : counter
}.

(** The sampler dataclass, over the class of its rule.  [hilbert],
    [n_chains], [n_batches] and [machine_pow] are fields of the base
    class [Sampler]. *)
Record MetropolisSampler (Rule : Type) : Type := {
  hilbert : Hilbert;
  n_chains : Z;
  n_batches : Z;
  machine_pow : real;
  rule : Rule;
  n_sweeps : Z
}.
Arguments hilbert {Rule} _.
Arguments n_chains {Rule} _.
Arguments n_batches {Rule} _.
Arguments machine_pow {Rule} _.
Arguments rule {Rule} _.
Arguments n_sweeps {Rule} _.

(** The transition-rule interface. *)
Class MetropolisRule (Rule : Type) : Type := {
  init_state : Rule -> MetropolisSampler Rule -> Machine -> PyTree ->
               PRNGKey -> option RuleState;
  reset : Rule -> MetropolisSampler Rule -> Machine -> PyTree ->
          MetropolisSamplerState -> option RuleState;
  transition : Rule -> MetropolisSampler Rule -> Machine -> PyTree ->
               MetropolisSamplerState -> PRNGKey -> Batch ->
               Batch * option (list real);
  random_state : Rule -> MetropolisSampler Rule -> Machine -> PyTree ->
                 MetropolisSamplerState -> PRNGKey -> Batch
}.

(** The bodies [MetropolisRule] gives to the methods a rule does not
    override. *)
Definition MetropolisRule_init_state {Rule : Type} (_ : Rule)
    (sampler : MetropolisSampler Rule) (machine : Machine) (params : PyTree)
    (key : PRNGKey) : option RuleState :=
  None.

Definition MetropolisRule_reset {Rule : Type} (_ : Rule)
    (sampler : MetropolisSampler Rule) (machine : Machine) (params : PyTree)
    (sampler_state : MetropolisSamplerState) : option RuleState :=
  rule_state sampler_state.

Definition MetropolisRule_random_state {Rule : Type} (_ : Rule)
    (sampler : MetropolisSampler Rule) (machine : Machine)
    (parameters : PyTree) (state : MetropolisSamplerState) (key : PRNGKey)
    : Batch :=
  hilbert_random_state (hilbert sampler) key (n_batches sampler).

Section Sampler.
Context {Rule : Type} `{MetropolisRule Rule}.
Variable sampler : MetropolisSampler Rule.
Variable machine : Machine.
Variable parameters : PyTree.

Definition _init_state (key : PRNGKey) : result MetropolisSamplerState :=
  let key_state := jax_random_split key 2 0 in
  let key_rule := jax_random_split key 2 1 in
  σ0 <- jnp_zeros (n_chains sampler) (size (hilbert sampler)) ;;
  let rule_state0 :=
    init_state (rule sampler) sampler machine parameters key_rule in
  Ok {| σ := σ0; rng := key_state; rule_state := rule_state0;
        n_samples := 0; n_accepted := PyInt 0 |}.

Definition _reset (state : MetropolisSamplerState) : MetropolisSamplerState :=
  let new_rng := jax_random_split (rng state) 2 0 in
  let rng0 := jax_random_split (rng state) 2 1 in
  let σ0 := random_state (rule sampler) sampler machine parameters state rng0 in
  let rule_state0 := reset (rule sampler) sampler machine parameters state in
  {| σ := σ0; rng := new_rng; rule_state := rule_state0;
     n_samples := 0; n_accepted := PyInt 0 |}.

(** [sampler.machine_pow * machine(parameters, σ).real] *)
Definition log_prob_of (σ0 : Batch) : list real :=
  rmul (machine_pow sampler) <$> (re <$> machine parameters σ0).

(** The mutable variables of the [loops.Scope] of [_sample_next];
    [s.accepted] is an int32 there. *)
Record Scope : Type := {
  s_key : PRNGKey;
  s_σ : Batch;
  s_log_prob : list real;
  s_accepted : Z
}.

(** What one pass through the loop body computes before it assigns
    the scope variables. *)
Record Proposal : Type := {
  σp : Batch;
  log_prob_correction : option (list real);
  proposal_log_prob : list real;
  uniform : list real;
  do_accept : list bool
}.

Definition accept_test (uniform0 proposal_log_prob0 log_prob0 : list real)
    (log_prob_correction0 : option (list real)) : list bool :=
  match log_prob_correction0 with
  | Some c =>
      zip_with rltb uniform0
        (rexp <$> zip_with radd (zip_with rsub proposal_log_prob0 log_prob0) c)
  | None =>
      zip_with rltb uniform0
        (rexp <$> zip_with rsub proposal_log_prob0 log_prob0)
  end.

Definition propose (state : MetropolisSamplerState) (s : Scope) : Proposal :=
  let key1 := jax_random_split (s_key s) 3 1 in
  let key2 := jax_random_split (s_key s) 3 2 in
  let '(σp0, corr) :=
    transition (rule sampler) sampler machine parameters state key1 (s_σ s) in
  let plp := log_prob_of σp0 in
  let n := Z.to_nat (n_chains sampler) in
  let uniform0 := jax_random_uniform key2 n <$> seq 0 n in
  {| σp := σp0; log_prob_correction := corr; proposal_log_prob := plp;
     uniform := uniform0;
     do_accept := accept_test uniform0 plp (s_log_prob s) corr |}.

(** The body of [for i in s.range(sampler.n_sweeps)]. *)
Definition sweep_round (state : MetropolisSamplerState) (s : Scope) : Scope :=
  let p := propose state s in
  {| s_key := jax_random_split (s_key s) 3 0;
     s_σ := jnp_where (do_accept p) (σp p) (s_σ s);
     (* an int32 addition: [s.accepted += do_accept.sum()] *)
     s_accepted := wrap32 (s_accepted s + jnp_sum_bool (do_accept p));
     s_log_prob := jnp_where (do_accept p) (proposal_log_prob p) (s_log_prob s) |}.

(** [s.range(n)]: the body run [n] times on the scope. *)
Fixpoint scope_range (n : nat) (body : Scope -> Scope) (s : Scope) : Scope :=
  match n with
  | O => s
  | S n' => scope_range n' body (body s)
  end.

Definition scope_init (state : MetropolisSamplerState) : Scope :=
  {| s_key := jax_random_split (rng state) 2 1;
     s_σ := σ state;
     s_log_prob := log_prob_of (σ state);
     s_accepted := counter_value (n_accepted state) |}.

Definition _sample_next (state : MetropolisSamplerState)
    : MetropolisSamplerState * Batch :=
  let new_rng := jax_random_split (rng state) 2 0 in
  let s := scope_range (Z.to_nat (n_sweeps sampler)) (sweep_round state)
             (scope_init state) in
  let new_state :=
    {| σ := s_σ s; rng := new_rng; rule_state := rule_state state;
       n_accepted := Int32 (s_accepted s);
       n_samples := n_samples state + n_sweeps sampler * n_chains sampler |} in
  (new_state, σ new_state).

(** The accept flags of [n] successive rounds from scope [s]. *)
Fixpoint accept_flags (state : MetropolisSamplerState) (n : nat) (s : Scope)
    : list (list bool) :=
  match n with
  | O => []
  | S n' => do_accept (propose state s)
              :: accept_flags state n' (sweep_round state s)
  end.

(** The number of [True] flags over all rounds and chains. *)
Definition accept_total (flags : list (list bool)) : Z :=
  foldr (fun c acc => jnp_sum_bool c + acc) 0 flags.

(** The shapes of the scope variables between two rounds. *)
Definition scope_shaped (s : Scope) : Prop :=
  length (s_σ s) = Z.to_nat (n_chains sampler) /\
  length (s_log_prob s) = Z.to_nat (n_chains sampler).

(** The shapes a call of [_sample_next] works on: the state holds
    [n_chains] configurations, the machine returns one value per
    configuration, and the rule proposes one configuration (and one
    correction, when it returns corrections) per configuration. *)
Definition well_shaped (state : MetropolisSamplerState) : Prop :=
  length (σ state) = Z.to_nat (n_chains sampler) /\
  (forall σ0, length (machine parameters σ0) = length σ0) /\
  (forall key σ0 σp0 corr,
      transition (rule sampler) sampler machine parameters state key σ0
        = (σp0, corr) ->
      length σp0 = length σ0 /\
      forall c, corr = Some c -> length c = length σ0).

End Sampler.

(** [acceptance_rate] as [MetropolisSamplerState.__repr__] computes it,
    [self.n_accepted / self.n_samples * 100]: a Python division, which
    raises on a zero divisor, when [n_accepted] is a Python integer, and
    a JAX division when it is an int32 array ([n_samples] is a Python
    integer in both cases). *)
Definition repr_acceptance_rate (self : MetropolisSamplerState) : result pyfloat :=
  match n_accepted self with
  | PyInt a =>
      q <- py_truediv a (n_samples self) ;;
      Ok (Finite (q * inject_Z 100)%Q)
  | Int32 a => Ok (jnp_mul100 (jnp_truediv a (n_samples self)))
  end.

End Metropolis.

Arguments MetropolisSamplerState {_ _} RuleState.
Arguments MetropolisSampler {_ _} Rule.
Arguments MetropolisRule {_ _} PyTree RuleState Rule.
Arguments hilbert {_ _ Rule} _.
Arguments n_chains {_ _ Rule} _.
Arguments n_batches {_ _ Rule} _.
Arguments machine_pow {_ _ Rule} _.
Arguments rule {_ _ Rule} _.
Arguments n_sweeps {_ _ Rule} _.

(** ** rules/exchange.py *)

Section Exchange.
Context `{PRNG}.
Context {PyTree RuleState : Type}.

(** [@struct.dataclass class ExchangeRule_(MetropolisRule)]: the cluster
    table, one row [(si, sj)] per exchange. *)
Record ExchangeRule_ : Type := {
  clusters : list (Z * Z)
}.

(** [scalar_update_fun(σ, cluster)], the exchange on one chain. *)
Definition scalar_update_fun (rule0 : ExchangeRule_) (σ0 : list Z) (cluster : Z)
    : list Z :=
  let si := fst (jnp_getitem (0, 0) (clusters rule0) cluster) in
  let sj := snd (jnp_getitem (0, 0) (clusters rule0) cluster) in
  let σp0 := index_update σ0 si (jnp_getitem 0 σ0 sj) in
  index_update σp0 sj (jnp_getitem 0 σ0 si).

(** [ExchangeRule_.transition].  With a table of no row the source raises
    at [rule.clusters[cluster, 0]]; what is stated of the transition below
    is stated for a table with at least one row. *)
Definition ExchangeRule_transition (rule0 : ExchangeRule_)
    (sampler : MetropolisSampler ExchangeRule_)
    (machine : Machine (PyTree := PyTree)) (parameters : PyTree)
    (state : MetropolisSamplerState RuleState) (key : PRNGKey) (σ0 : Batch)
    : Batch * option (list real) :=
  let n_chains0 := length σ0 in
  let cluster_id :=
    jax_random_randint key n_chains0 0 (Z.of_nat (length (clusters rule0)))
      <$> seq 0 n_chains0 in
  (zip_with (scalar_update_fun rule0) σ0 cluster_id, None).

#[export] Instance ExchangeRule_MetropolisRule
    : MetropolisRule PyTree RuleState ExchangeRule_ := {
  init_state := MetropolisRule_init_state;
  reset := MetropolisRule_reset;
  transition := ExchangeRule_transition;
  random_state := MetropolisRule_random_state
}.

End Exchange.

(** [i] indexes an axis of length [n], from the front or (negative) from
    the end. *)
Definition site_in_range (n : nat) (i : Z) : Prop :=
  - Z.of_nat n <= i < Z.of_nat n.

(** Every row of the cluster table names two sites of a configuration of
    [n] sites. *)
Definition clusters_in_range (rule0 : ExchangeRule_) (n : nat) : Prop :=
  Forall (fun c => site_in_range n (fst c) /\ site_in_range n (snd c))
    (clusters rule0).

(** A graph, as [compute_clusters] consumes it: [graph.distances()]. *)
Record Graph : Type := {
  distances : list (list Z)
}.

(** [distances[i][j]] *)
Definition distances_at (distances0 : list (list Z)) (i j : nat) : result Z :=
  match distances0 !! i with
  | None => Raise IndexError
  | Some row =>
      match row !! j with
      | None => Raise IndexError
      | Some d => Ok d
      end
  end.

(** [np.asarray(cluster)]: the pair of Python integers as an int64 row. *)
Definition int64_row (cluster : nat * nat) : Z * Z :=
  (Z.of_nat (fst cluster), Z.of_nat (snd cluster)).

Definition compute_clusters (graph : Graph) (d_max : Z) : result (list (Z * Z)) :=
  let distances0 := distances graph in
  let size0 := length distances0 in
  clusters0 <-
    for_in (range 0 size0) (fun i clusters0 =>
      for_in (range (i + 1) size0) (fun j clusters1 =>
        d <- distances_at distances0 i j ;;
        Ok (if d <=? d_max then clusters1 ++ [(i, j)] else clusters1))
      clusters0) [] ;;
  (* res_clusters[i] = np.asarray(cluster) *)
  Ok (int64_row <$> clusters0).

(** A distance table with as many columns as rows. *)
Definition square_table (distances0 : list (list Z)) : Prop :=
  Forall (fun row => length row = length distances0) distances0.

(** Lexicographic order on the rows of a cluster table. *)
Definition cluster_lt (p q : Z * Z) : Prop :=
  fst p < fst q \/ (fst p = fst q /\ snd p < snd q).

(** The constructor [ExchangeRule], with keyword arguments [clusters]
    (default [None]), [graph] (default [None]) and [d_max]. *)
Definition ExchangeRule (clusters0 : option (list (Z * Z))) (graph : option Graph)
    (d_max : Z) : result ExchangeRule_ :=
  clusters1 <-
    match clusters0, graph with
    | None, Some g =>          (* clusters is None and graph is not None *)
        compute_clusters g d_max
    | Some c, None => Ok c     (* clusters is not None and graph is None *)
    | _, _ => Raise ValueError (* elif not (...): raise ValueError *)
    end ;;
  (* jnp.array(clusters) keeps the rows *)
  Ok {| clusters := clusters1 |}.

(** ** A small concrete instance

    Fixed-point reals (thousandths), complex numbers as pairs, and a
    linear congruential key stream; the statements below are run on it. *)

Definition fixed_exp (x : Z) : Z :=
  if x <? 0 then 1000 / 2 ^ (- x) else 1000 * 2 ^ x.

Definition fixed_numeric : Numeric := {|
  real := Z;
  complex := Z * Z;
  re := fst;
  radd := Z.add;
  rsub := Z.sub;
  rmul := Z.mul;
  rexp := fixed_exp;
  rltb := Z.ltb
|}.

Definition lcg_split (key : Z) (num i : nat) : Z :=
  (key * 1103515245 + 12345 + Z.of_nat i * 40503) mod 2 ^ 31.

Definition lcg_uniform (key : Z) (n i : nat) : Z :=
  (key * 7919 + Z.of_nat i * 104729) mod 1000.

Definition lcg_randint (key : Z) (n : nat) (minval maxval : Z) (i : nat) : Z :=
  if maxval <=? minval then minval
  else minval + (key + Z.of_nat i * 31) mod (maxval - minval).

Definition lcg_prng : @PRNG fixed_numeric :=
  @Build_PRNG fixed_numeric Z lcg_split lcg_uniform lcg_randint.

(** Four sites and the nearest-neighbour cluster table of an open chain. *)
Definition chain4_rule : ExchangeRule_ :=
  {| clusters := [(0, 1); (1, 2); (2, 3)] |}.

Definition spin4_hilbert : @Hilbert fixed_numeric lcg_prng :=
  {| size := 4;
     hilbert_random_state := fun key n =>
       replicate (Z.to_nat n) [1; 1; -1; -1] |}.

Definition chain4_sampler : @MetropolisSampler fixed_numeric lcg_prng ExchangeRule_ :=
  {| hilbert := spin4_hilbert; n_chains := 2; n_batches := 2;
     machine_pow := 2; rule := chain4_rule; n_sweeps := 4 |}.

(** A machine whose log-amplitude is the first site value. *)
Definition first_site_machine : @Machine fixed_numeric unit :=
  fun _ σ0 => (fun row => (jnp_getitem 0 row 0, 0)) <$> σ0.

Definition chain4_state : @MetropolisSamplerState fixed_numeric lcg_prng unit :=
  @Build_MetropolisSamplerState fixed_numeric lcg_prng unit
    [[1; 1; -1; -1]; [1; -1; 1; -1]] 42 None 0 (PyInt 0).

(** The same sampler with no chain at all. *)
Definition chainless_sampler : @MetropolisSampler fixed_numeric lcg_prng ExchangeRule_ :=
  {| hilbert := spin4_hilbert; n_chains := 0; n_batches := 0;
     machine_pow := 2; rule := chain4_rule; n_sweeps := 4 |}.

(** A state with one accepted move out of two. *)
Definition half_state : @MetropolisSamplerState fixed_numeric lcg_prng unit :=
  @Build_MetropolisSamplerState fixed_numeric lcg_prng unit
    [[1; 1; -1; -1]; [1; -1; 1; -1]] 42 None 2 (PyInt 1).

(** A state whose accepted counter has reached the largest int32. *)
Definition saturated_state : @MetropolisSamplerState fixed_numeric lcg_prng unit :=
  @Build_MetropolisSamplerState fixed_numeric lcg_prng unit
    [[1; 1; -1; -1]; [1; -1; 1; -1]] 42 None 2147483647 (Int32 2147483647).

(** The four-site sampler with a negative number of sweeps. *)
Definition backward_sampler : @MetropolisSampler fixed_numeric lcg_prng ExchangeRule_ :=
  {| hilbert := spin4_hilbert; n_chains := 2; n_batches := 2;
     machine_pow := 2; rule := chain4_rule; n_sweeps := -3 |}.

(** * Properties *)

(** ** Array primitives *)

Lemma jnp_where_lookup {A : Type} (c : list bool) (x y : list A)
    (i : nat) (b : bool) (a a' : A) :
  c !! i = Some b -> x !! i = Some a -> y !! i = Some a' ->
  jnp_where c x y !! i = Some (if b then a else a').
Proof.
  intros Hc Hx Hy. unfold jnp_where.
  rewrite lookup_zip_with, Hc. simpl.
  rewrite lookup_zip_with, Hx. simpl. rewrite Hy. reflexivity.
Qed.

Lemma jnp_where_length {A : Type} (c : list bool) (x y : list A) n :
  length c = n -> length x = n -> length y = n ->
  length (jnp_where c x y) = n.
Proof.
  intros Hc Hx Hy. unfold jnp_where.
  rewrite length_zip_with, length_zip_with. lia.
Qed.

Lemma jnp_sum_bool_bounds (c : list bool) :
  0 <= jnp_sum_bool c <= Z.of_nat (length c).
Proof.
  induction c as [|b c IH]; simpl; [lia|].
  destruct b; simpl; lia.
Qed.

(** ** int32 counters *)

Lemma wrap32_in_range (z : Z) : int32_range z -> wrap32 z = z.
Proof.
  unfold int32_range, wrap32. intros Hz. rewrite Z.mod_small; lia.
Qed.

Lemma wrap32_range (z : Z) : int32_range (wrap32 z).
Proof.
  unfold int32_range, wrap32.
  pose proof (Z.mod_pos_bound (z + 2147483648) 4294967296 ltac:(lia)). lia.
Qed.

Lemma wrap32_add_l (a b : Z) : wrap32 (wrap32 a + b) = wrap32 (a + b).
Proof.
  unfold wrap32. f_equal.
  replace ((a + 2147483648) mod 4294967296 - 2147483648 + b + 2147483648)
    with ((a + 2147483648) mod 4294967296 + b) by lia.
  rewrite Zplus_mod_idemp_l. f_equal. lia.
Qed.

(** ** The sweep loop of [_sample_next] *)

Section SamplerFacts.
Context `{PRNG}.
Context {PyTree RuleState Rule : Type} `{!MetropolisRule PyTree RuleState Rule}.
Variable sampler : MetropolisSampler Rule.
Variable machine : Machine (PyTree := PyTree).
Variable parameters : PyTree.
Variable state : MetropolisSamplerState RuleState.

Local Abbreviation round := (sweep_round sampler machine parameters state).
Local Abbreviation proposal := (propose sampler machine parameters state).

Lemma propose_sigma_p s :
  σp (proposal s)
  = fst (transition (rule sampler) sampler machine parameters state
           (jax_random_split (s_key s) 3 1) (s_σ s)).
Proof. unfold propose. destruct (transition _ _ _ _ _ _ _). reflexivity. Qed.

Lemma propose_correction s :
  log_prob_correction (proposal s)
  = snd (transition (rule sampler) sampler machine parameters state
           (jax_random_split (s_key s) 3 1) (s_σ s)).
Proof. unfold propose. destruct (transition _ _ _ _ _ _ _). reflexivity. Qed.

Lemma propose_log_prob s :
  proposal_log_prob (proposal s)
  = log_prob_of sampler machine parameters (σp (proposal s)).
Proof. unfold propose. destruct (transition _ _ _ _ _ _ _). reflexivity. Qed.

Lemma propose_uniform s :
  uniform (proposal s)
  = jax_random_uniform (jax_random_split (s_key s) 3 2)
      (Z.to_nat (n_chains sampler)) <$> seq 0 (Z.to_nat (n_chains sampler)).
Proof. unfold propose. destruct (transition _ _ _ _ _ _ _). reflexivity. Qed.

Lemma propose_do_accept s :
  do_accept (proposal s)
  = accept_test (uniform (proposal s)) (proposal_log_prob (proposal s))
      (s_log_prob s) (log_prob_correction (proposal s)).
Proof. unfold propose. destruct (transition _ _ _ _ _ _ _). reflexivity. Qed.

Lemma accept_test_lookup (u plp lp : list real) corr i ui lp'i lpi r :
  u !! i = Some ui -> plp !! i = Some lp'i -> lp !! i = Some lpi ->
  match corr with
  | None => Some (rsub lp'i lpi)
  | Some c => radd (rsub lp'i lpi) <$> c !! i
  end = Some r ->
  accept_test u plp lp corr !! i = Some (rltb ui (rexp r)).
Proof.
  intros Hu Hp Hl Hr. unfold accept_test.
  destruct corr as [c|].
  - destruct (c !! i) as [ci|] eqn:Hc; simpl in Hr; [|discriminate].
    injection Hr as <-.
    rewrite lookup_zip_with, Hu. simpl.
    rewrite list_lookup_fmap, lookup_zip_with, lookup_zip_with, Hp. simpl.
    rewrite Hl. simpl. rewrite Hc. reflexivity.
  - injection Hr as <-.
    rewrite lookup_zip_with, Hu. simpl.
    rewrite list_lookup_fmap, lookup_zip_with, Hp. simpl.
    rewrite Hl. reflexivity.
Qed.

(** C1. In one round of the sweep loop, chain [i] is accepted exactly
    when its uniform variate is below [exp] of the difference of the
    proposed and the current log-probability, plus the rule's correction
    when the rule returned one; an accepted chain takes the proposed
    configuration and log-probability, a rejected one keeps its own. *)
Theorem sweep_round_accept_rule (s : Scope) (i : nat)
    (σp0 : Batch) (corr : option (list real))
    (x x' : list Z) (lp lp' r : real) :
  let key1 := jax_random_split (s_key s) 3 1 in
  let key2 := jax_random_split (s_key s) 3 2 in
  let n := Z.to_nat (n_chains sampler) in
  let u := jax_random_uniform key2 n i in
  transition (rule sampler) sampler machine parameters state key1 (s_σ s)
    = (σp0, corr) ->
  (i < n)%nat ->
  s_σ s !! i = Some x ->
  s_log_prob s !! i = Some lp ->
  σp0 !! i = Some x' ->
  log_prob_of sampler machine parameters σp0 !! i = Some lp' ->
  match corr with
  | None => Some (rsub lp' lp)
  | Some c => radd (rsub lp' lp) <$> c !! i
  end = Some r ->
  do_accept (proposal s) !! i = Some (rltb u (rexp r)) /\
  s_σ (round s) !! i = Some (if rltb u (rexp r) then x' else x) /\
  s_log_prob (round s) !! i = Some (if rltb u (rexp r) then lp' else lp).
Proof.
  intros key1 key2 n u Ht Hi Hx Hlp Hx' Hlp' Hr.
  assert (Hσp : σp (proposal s) = σp0) by (rewrite propose_sigma_p; fold key1; now rewrite Ht).
  assert (Hc : log_prob_correction (proposal s) = corr)
    by (rewrite propose_correction; fold key1; now rewrite Ht).
  assert (Hu : uniform (proposal s) !! i = Some u).
  { rewrite propose_uniform, list_lookup_fmap. fold n key2.
    rewrite lookup_seq_lt by exact Hi. reflexivity. }
  assert (Hacc : do_accept (proposal s) !! i = Some (rltb u (rexp r))).
  { rewrite propose_do_accept.
    apply accept_test_lookup with (lp'i := lp') (lpi := lp); try assumption.
    - rewrite propose_log_prob, Hσp. exact Hlp'.
    - rewrite Hc. exact Hr. }
  split; [exact Hacc|]. unfold sweep_round. simpl. split.
  - apply jnp_where_lookup; [exact Hacc| now rewrite Hσp | exact Hx].
  - apply jnp_where_lookup; [exact Hacc| | exact Hlp].
    rewrite propose_log_prob, Hσp. exact Hlp'.
Qed.

Lemma log_prob_of_length σ0 :
  (forall σ1, length (machine parameters σ1) = length σ1) ->
  length (log_prob_of sampler machine parameters σ0) = length σ0.
Proof.
  intros Hm. unfold log_prob_of. now rewrite !length_fmap.
Qed.

Lemma accept_test_length (u plp lp : list real) corr n :
  length u = n -> length plp = n -> length lp = n ->
  (forall c, corr = Some c -> length c = n) ->
  length (accept_test u plp lp corr) = n.
Proof.
  intros Hu Hp Hl Hc. unfold accept_test. destruct corr as [c|].
  - specialize (Hc c eq_refl).
    rewrite length_zip_with, length_fmap, !length_zip_with. lia.
  - rewrite length_zip_with, length_fmap, length_zip_with. lia.
Qed.

Lemma propose_shapes s :
  well_shaped sampler machine parameters state -> scope_shaped sampler s ->
  let n := Z.to_nat (n_chains sampler) in
  length (σp (proposal s)) = n /\
  length (proposal_log_prob (proposal s)) = n /\
  length (do_accept (proposal s)) = n.
Proof.
  intros (Hσ & Hm & Ht) (Hsσ & Hsl) n.
  destruct (transition (rule sampler) sampler machine parameters state
              (jax_random_split (s_key s) 3 1) (s_σ s)) as [σp0 corr] eqn:E.
  destruct (Ht _ _ _ _ E) as [Hp Hc].
  assert (H1 : length (σp (proposal s)) = n)
    by (rewrite propose_sigma_p, E; simpl; lia).
  assert (H2 : length (proposal_log_prob (proposal s)) = n)
    by (rewrite propose_log_prob, log_prob_of_length by exact Hm; exact H1).
  repeat split; try assumption.
  rewrite propose_do_accept. apply accept_test_length; try assumption.
  - rewrite propose_uniform, length_fmap, length_seq. reflexivity.
  - rewrite propose_correction, E. simpl. intros c Hcc.
    rewrite (Hc c Hcc). exact Hsσ.
Qed.

Lemma sweep_round_shaped s :
  well_shaped sampler machine parameters state -> scope_shaped sampler s ->
  scope_shaped sampler (round s).
Proof.
  intros Hw Hs. destruct (propose_shapes s Hw Hs) as (H1 & H2 & H3).
  destruct Hs as [Hsσ Hsl]. unfold sweep_round, scope_shaped. simpl.
  split; apply jnp_where_length; assumption.
Qed.

Lemma scope_init_shaped :
  well_shaped sampler machine parameters state ->
  scope_shaped sampler (scope_init sampler machine parameters state).
Proof.
  intros (Hσ & Hm & Ht). unfold scope_init, scope_shaped. simpl.
  split; [exact Hσ|]. now rewrite log_prob_of_length.
Qed.

Lemma scope_range_shaped n s :
  well_shaped sampler machine parameters state -> scope_shaped sampler s ->
  scope_shaped sampler (scope_range n round s).
Proof.
  intros Hw. revert s. induction n as [|n IH]; intros s Hs; simpl; [exact Hs|].
  apply IH, sweep_round_shaped; assumption.
Qed.

(** The counter of the scope grows by the flags of the rounds run, in
    int32 arithmetic. *)
Lemma scope_range_accepted n s :
  int32_range (s_accepted s) ->
  s_accepted (scope_range n round s)
  = wrap32 (s_accepted s
            + accept_total (accept_flags sampler machine parameters state n s)).
Proof.
  revert s. induction n as [|n IH]; intros s Hs; simpl.
  - rewrite Z.add_0_r. symmetry. now apply wrap32_in_range.
  - rewrite IH.
    + change (s_accepted (round s))
        with (wrap32 (s_accepted s + jnp_sum_bool (do_accept (proposal s)))).
      rewrite wrap32_add_l. f_equal. lia.
    + apply wrap32_range.
Qed.

Lemma accept_flags_length n s :
  length (accept_flags sampler machine parameters state n s) = n.
Proof.
  revert s. induction n as [|n IH]; intros s; simpl; [reflexivity|].
  now rewrite IH.
Qed.

Lemma accept_flags_shaped n s :
  well_shaped sampler machine parameters state -> scope_shaped sampler s ->
  Forall (fun c => length c = Z.to_nat (n_chains sampler))
    (accept_flags sampler machine parameters state n s).
Proof.
  intros Hw. revert s. induction n as [|n IH]; intros s Hs; simpl.
  - constructor.
  - constructor.
    + apply (propose_shapes s Hw Hs).
    + apply IH, sweep_round_shaped; assumption.
Qed.

Lemma accept_total_bounds (flags : list (list bool)) m :
  Forall (fun c => length c = m) flags ->
  0 <= accept_total flags <= Z.of_nat (length flags) * Z.of_nat m.
Proof.
  induction 1 as [|c flags Hc _ IH]; simpl; [lia|].
  pose proof (jnp_sum_bool_bounds c) as Hb. rewrite Hc in Hb. nia.
Qed.

(** X16. [_sample_next] adds [n_sweeps * n_chains] to the attempted
    counter and, in int32 arithmetic, the number of accept flags raised
    over all rounds and chains to the accepted counter; there are
    [n_chains] flags in each of the [n_sweeps] rounds.  As long as the
    accepted counter cannot pass the largest int32 in this call, it grows
    by exactly that number and [0 <= n_accepted <= n_samples] is kept. *)
Theorem sample_next_counters_bounded :
  well_shaped sampler machine parameters state ->
  0 <= n_sweeps sampler -> 0 <= n_chains sampler ->
  int32_range (counter_value (n_accepted state)) ->
  let new_state := fst (_sample_next sampler machine parameters state) in
  let flags :=
    accept_flags sampler machine parameters state (Z.to_nat (n_sweeps sampler))
      (scope_init sampler machine parameters state) in
  n_samples new_state
    = n_samples state + n_sweeps sampler * n_chains sampler /\
  n_accepted new_state
    = Int32 (wrap32 (counter_value (n_accepted state) + accept_total flags)) /\
  length flags = Z.to_nat (n_sweeps sampler) /\
  Forall (fun c => length c = Z.to_nat (n_chains sampler)) flags /\
  (counter_value (n_accepted state) + n_sweeps sampler * n_chains sampler
     <= 2147483647 ->
   n_accepted new_state
     = Int32 (counter_value (n_accepted state) + accept_total flags) /\
   (0 <= counter_value (n_accepted state) <= n_samples state ->
    0 <= counter_value (n_accepted new_state) <= n_samples new_state)).
Proof.
  intros Hw Hs Hc Hrange new_state flags.
  assert (Hlen : length flags = Z.to_nat (n_sweeps sampler))
    by apply accept_flags_length.
  assert (Hall : Forall (fun c => length c = Z.to_nat (n_chains sampler)) flags)
    by (apply accept_flags_shaped; [exact Hw | now apply scope_init_shaped]).
  assert (Hacc : n_accepted new_state
                 = Int32 (wrap32 (counter_value (n_accepted state)
                                  + accept_total flags))).
  { unfold new_state, _sample_next. cbn [fst n_accepted]. f_equal.
    now rewrite scope_range_accepted. }
  split; [reflexivity|]. split; [exact Hacc|].
  split; [exact Hlen|]. split; [exact Hall|].
  intros Hmax. pose proof (accept_total_bounds flags _ Hall) as Hb.
  rewrite Hlen, !Z2Nat.id in Hb by assumption.
  assert (Hid : wrap32 (counter_value (n_accepted state) + accept_total flags)
                = counter_value (n_accepted state) + accept_total flags).
  { apply wrap32_in_range. unfold int32_range in *. lia. }
  rewrite Hacc, Hid. split; [reflexivity|].
  intros Hinv. cbn [counter_value].
  change (n_samples new_state)
    with (n_samples state + n_sweeps sampler * n_chains sampler). lia.
Qed.

(** C10. [_sample_next] returns a state that carries the rule state of
    its input. *)
Theorem sample_next_rule_state :
  rule_state (fst (_sample_next sampler machine parameters state))
  = rule_state state.
Proof. reflexivity. Qed.

End SamplerFacts.

(** ** Initial state *)

Section InitState.
Context `{PRNG}.
Context {PyTree RuleState Rule : Type} `{!MetropolisRule PyTree RuleState Rule}.
Variable sampler : MetropolisSampler Rule.
Variable machine : Machine (PyTree := PyTree).
Variable parameters : PyTree.

Lemma jnp_zeros_ok rows cols :
  0 <= rows -> 0 <= cols ->
  jnp_zeros rows cols
  = Ok (replicate (Z.to_nat rows) (replicate (Z.to_nat cols) 0)).
Proof.
  intros Hr Hc. unfold jnp_zeros.
  destruct (Z.ltb_spec rows 0); [lia|]. destruct (Z.ltb_spec cols 0); [lia|].
  reflexivity.
Qed.

Lemma jnp_zeros_raise rows cols :
  rows < 0 \/ cols < 0 -> jnp_zeros rows cols = Raise ShapeError.
Proof.
  intros Hneg. unfold jnp_zeros.
  destruct (Z.ltb_spec rows 0); [reflexivity|].
  destruct (Z.ltb_spec cols 0); [reflexivity|lia].
Qed.

(** C7. [_init_state] splits the key in two, keeps the first half as the
    key of the state and gives the second to the rule's [init_state];
    the batch has [n_chains] rows of [hilbert.size] zeros and both
    counters are 0. *)
Theorem init_state_spec (key : PRNGKey) :
  0 <= n_chains sampler -> 0 <= size (hilbert sampler) ->
  exists st : MetropolisSamplerState RuleState,
    _init_state sampler machine parameters key = Ok st /\
    rng st = jax_random_split key 2 0 /\
    rule_state st
      = init_state (rule sampler) sampler machine parameters
          (jax_random_split key 2 1) /\
    length (σ st) = Z.to_nat (n_chains sampler) /\
    Forall (fun row => length row = Z.to_nat (size (hilbert sampler)) /\
                       Forall (fun v => v = 0) row) (σ st) /\
    n_samples st = 0 /\ n_accepted st = PyInt 0.
Proof.
  intros Hn Hs. unfold _init_state. rewrite jnp_zeros_ok by assumption.
  simpl. eexists. split; [reflexivity|]. simpl.
  repeat split; try reflexivity.
  - apply length_replicate.
  - apply Forall_replicate. split; [apply length_replicate|].
    now apply Forall_replicate.
Qed.

(** C8, as the code has it. [_init_state] checks no arity: it fails
    exactly when a dimension of the zero batch is negative, and returns
    a state (with an empty batch) when [n_chains] or [hilbert.size] is
    0. *)
Theorem init_state_failure (key : PRNGKey) :
  (exists e, _init_state sampler machine parameters key = Raise e)
  <-> (n_chains sampler < 0 \/ size (hilbert sampler) < 0).
Proof.
  split.
  - intros [e He].
    destruct (Z.lt_ge_cases (n_chains sampler) 0) as [|Hn]; [now left|].
    destruct (Z.lt_ge_cases (size (hilbert sampler)) 0) as [|Hs]; [now right|].
    unfold _init_state in He. rewrite jnp_zeros_ok in He by assumption.
    discriminate He.
  - intros Hneg. exists ShapeError. unfold _init_state.
    now rewrite jnp_zeros_raise.
Qed.

End InitState.

(** ** Acceptance rate of [__repr__] *)

Section AcceptanceRate.
Context `{PRNG}.
Context {RuleState : Type}.

(** C9, as the code has it. For a state with [n_samples > 0] the rate
    [__repr__] shows is the percentage [100 * n_accepted / n_samples]. *)
Theorem repr_acceptance_rate_percent (self : MetropolisSamplerState RuleState) :
  0 < n_samples self ->
  exists q : Q,
    repr_acceptance_rate self = Ok (Finite q) /\
    (q == inject_Z 100
          * (inject_Z (counter_value (n_accepted self)) / inject_Z (n_samples self)))%Q.
Proof.
  intros Hpos. unfold repr_acceptance_rate, py_truediv, jnp_truediv.
  destruct (Z.eqb_spec (n_samples self) 0) as [E|_]; [lia|].
  destruct (n_accepted self) as [a|a]; simpl;
    (eexists; split; [reflexivity|apply Qmult_comm]).
Qed.

End AcceptanceRate.

(** ** Cluster table *)

Section Clusters.

Lemma for_in_range_invariant {S : Type} (I : nat -> S -> Prop)
    (body : nat -> S -> result S) (a b : nat) (s : S) :
  (a <= b)%nat ->
  I a s ->
  (forall i s0, (a <= i < b)%nat -> I i s0 ->
                exists s1, body i s0 = Ok s1 /\ I (Datatypes.S i) s1) ->
  exists s', for_in (range a b) body s = Ok s' /\ I b s'.
Proof.
  unfold range. intros Hab. remember (b - a)%nat as k eqn:Hk.
  revert a s Hab Hk. induction k as [|k IH]; intros a s Hab Hk Ha Hstep; simpl.
  - exists s. split; [reflexivity|]. now replace b with a by lia.
  - destruct (Hstep a s) as (s1 & Hbody & Hs1); [lia|exact Ha|].
    rewrite Hbody. simpl. apply IH; [lia|lia|exact Hs1|].
    intros i s0 Hi. apply Hstep. lia.
Qed.

Lemma StronglySorted_snoc {A : Type} (R : relation A) (l : list A) (y : A) :
  StronglySorted R l -> Forall (fun x => R x y) l ->
  StronglySorted R (l ++ [y]).
Proof.
  intros Hl Hy. apply StronglySorted_app. split; [|split].
  - intros x1 x2 Hx1 Hx2. apply list_elem_of_singleton in Hx2 as ->.
    revert x1 Hx1. now apply Forall_forall.
  - exact Hl.
  - repeat constructor.
Qed.

Variable t : list (list Z).
Variable d_max : Z.
Hypothesis square : square_table t.

(** [(a, b)] is a pair of nodes at distance at most [d_max]. *)
Let within (a b : nat) : Prop :=
  exists d, distances_at t a b = Ok d /\ d <= d_max.

Let row_lt (p q : nat * nat) : Prop := cluster_lt (int64_row p) (int64_row q).

Lemma distances_at_square i j :
  (i < length t)%nat -> (j < length t)%nat ->
  exists d, distances_at t i j = Ok d.
Proof using square.
  intros Hi Hj. unfold distances_at.
  destruct (lookup_lt_is_Some_2 t i Hi) as [row Hrow]. rewrite Hrow.
  assert (Hlen : length row = length t).
  { unfold square_table in square. rewrite Forall_forall in square.
    apply square. eapply list_elem_of_lookup_2, Hrow. }
  destruct (lookup_lt_is_Some_2 row j) as [d Hd]; [lia|].
  rewrite Hd. now exists d.
Qed.

(** After the rows before [i] and the columns of row [i] before [j]. *)
Let inner_inv (i j : nat) (cl : list (nat * nat)) : Prop :=
  StronglySorted row_lt cl /\
  forall a b, (a, b) ∈ cl <->
    ((a < i)%nat /\ (a < b < length t)%nat /\ within a b) \/
    (a = i /\ (i < b < j)%nat /\ within a b).

Let outer_inv (i : nat) (cl : list (nat * nat)) : Prop :=
  StronglySorted row_lt cl /\
  forall a b, (a, b) ∈ cl <->
    ((a < i)%nat /\ (a < b < length t)%nat /\ within a b).

Lemma inner_step i j cl :
  (i < j < length t)%nat -> inner_inv i j cl ->
  exists cl',
    (d <- distances_at t i j ;;
     Ok (if d <=? d_max then cl ++ [(i, j)] else cl)) = Ok cl' /\
    inner_inv i (S j) cl'.
Proof using square.
  intros Hij [Hsorted Hmem].
  destruct (distances_at_square i j) as [d Hd]; [lia|lia|].
  rewrite Hd. simpl. eexists. split; [reflexivity|].
  destruct (Z.leb_spec d d_max) as [Hle|Hgt].
  - split.
    + apply StronglySorted_snoc; [exact Hsorted|].
      apply Forall_forall. intros [a b] Hab. apply Hmem in Hab.
      unfold row_lt, cluster_lt, int64_row. simpl. lia.
    + intros a b. rewrite elem_of_app, list_elem_of_singleton, Hmem.
      split.
      * intros [[H1|H1]|H1].
        -- now left.
        -- right. destruct H1 as (-> & Hb & Hw). repeat split; [lia|lia|exact Hw].
        -- injection H1 as -> ->. right. repeat split; [lia|lia|].
           exists d. now split.
      * intros [H1|(-> & Hb & Hw)].
        -- left. now left.
        -- destruct (decide (b = j)) as [->|Hne]; [now right|].
           left. right. repeat split; [lia|lia|exact Hw].
  - split; [exact Hsorted|].
    intros a b. rewrite Hmem. split.
    + intros [H1|(-> & Hb & Hw)]; [now left|].
      right. repeat split; [lia|lia|exact Hw].
    + intros [H1|(-> & Hb & Hw)]; [now left|].
      destruct (decide (b = j)) as [->|Hne].
      * destruct Hw as (d' & Hd' & Hle). rewrite Hd in Hd'.
        injection Hd' as <-. lia.
      * right. repeat split; [lia|lia|exact Hw].
Qed.

Lemma outer_step i cl :
  (i < length t)%nat -> outer_inv i cl ->
  exists cl',
    for_in (range (i + 1) (length t)) (fun j clusters1 =>
      d <- distances_at t i j ;;
      Ok (if d <=? d_max then clusters1 ++ [(i, j)] else clusters1)) cl
    = Ok cl' /\
    outer_inv (S i) cl'.
Proof using square.
  intros Hi [Hsorted Hmem].
  destruct (for_in_range_invariant (inner_inv i)
              (fun j clusters1 =>
                 d <- distances_at t i j ;;
                 Ok (if d <=? d_max then clusters1 ++ [(i, j)] else clusters1))
              (i + 1) (length t) cl) as (cl' & Hrun & [Hs' Hm']).
  - lia.
  - split; [exact Hsorted|]. intros a b. rewrite Hmem. split.
    + intros H1. now left.
    + intros [H1|(-> & Hb & _)]; [exact H1|lia].
  - intros j s0 Hj Hinv. apply inner_step; [lia|exact Hinv].
  - exists cl'. split; [exact Hrun|]. split; [exact Hs'|].
    intros a b. rewrite Hm'. split.
    + intros [(Ha & Hb & Hw)|(-> & Hb & Hw)]; repeat split; try lia; exact Hw.
    + intros (Ha & Hb & Hw). destruct (decide (a = i)) as [->|Hne].
      * right. repeat split; [lia|lia|exact Hw].
      * left. repeat split; [lia|lia|lia|exact Hw].
Qed.

Lemma clusters_loop :
  exists cl,
    for_in (range 0 (length t)) (fun i clusters0 =>
      for_in (range (i + 1) (length t)) (fun j clusters1 =>
        d <- distances_at t i j ;;
        Ok (if d <=? d_max then clusters1 ++ [(i, j)] else clusters1))
      clusters0) []
    = Ok cl /\
    outer_inv (length t) cl.
Proof using square.
  apply (for_in_range_invariant outer_inv).
  - lia.
  - split; [constructor|]. intros a b. split.
    + intros Hin. inversion Hin.
    + intros (Ha & _). lia.
  - intros i s0 Hi Hinv. apply outer_step; [lia|exact Hinv].
Qed.

End Clusters.

Lemma cluster_lt_irrefl (p : Z * Z) : ~ cluster_lt p p.
Proof. unfold cluster_lt. lia. Qed.

Lemma StronglySorted_NoDup {A : Type} (R : relation A) (l : list A) :
  (forall x, ~ R x x) -> StronglySorted R l -> NoDup l.
Proof.
  intros Hirr. induction 1 as [|x l Hl IH Hx]; constructor; [|exact IH].
  intros Hin. rewrite Forall_forall in Hx. exact (Hirr x (Hx x Hin)).
Qed.

(** On a square distance table no lookup of [compute_clusters] is out of
    range. *)
Lemma compute_clusters_total (graph : Graph) (d_max : Z) :
  square_table (distances graph) ->
  exists res, compute_clusters graph d_max = Ok res.
Proof.
  intros Hsq.
  destruct (clusters_loop (distances graph) d_max Hsq) as (cl & Hrun & _).
  unfold compute_clusters. rewrite Hrun. simpl. now eexists.
Qed.

(** C6. On a square distance table [compute_clusters] returns the pairs
    [(i, j)] with [i < j] below the size and [distances[i][j] <= d_max],
    each once, in lexicographic order, and nothing else. *)
Theorem compute_clusters_spec (graph : Graph) (d_max : Z) :
  square_table (distances graph) ->
  exists res,
    compute_clusters graph d_max = Ok res /\
    StronglySorted cluster_lt res /\
    NoDup res /\
    forall a b : Z,
      (a, b) ∈ res <->
      (0 <= a < b /\ b < Z.of_nat (length (distances graph)) /\
       exists d, distances_at (distances graph) (Z.to_nat a) (Z.to_nat b) = Ok d /\
                 d <= d_max).
Proof.
  intros Hsq.
  destruct (clusters_loop (distances graph) d_max Hsq) as (cl & Hrun & Hsorted & Hmem).
  unfold compute_clusters. rewrite Hrun. simpl.
  assert (Hres : StronglySorted cluster_lt (int64_row <$> cl)).
  { revert Hsorted. apply StronglySorted_fmap. auto. }
  eexists. split; [reflexivity|]. split; [exact Hres|].
  split; [exact (StronglySorted_NoDup _ _ cluster_lt_irrefl Hres)|].
  intros a b. rewrite list_elem_of_fmap. split.
  - intros ([a0 b0] & Heq & Hin). unfold int64_row in Heq. simpl in Heq.
    injection Heq as -> ->. apply Hmem in Hin as (_ & Hab & Hw).
    rewrite !Nat2Z.id. repeat split; [lia|lia|lia|exact Hw].
  - intros (Hab & Hb & Hw). exists (Z.to_nat a, Z.to_nat b). split.
    + unfold int64_row. simpl. f_equal; lia.
    + apply Hmem. repeat split; [lia|lia|lia|exact Hw].
Qed.

Lemma compute_clusters_spec_witness :
  exists res,
    compute_clusters {| distances := [[0; 1; 2]; [1; 0; 1]; [2; 1; 0]] |} 1 = Ok res /\
    StronglySorted cluster_lt res /\
    NoDup res /\
    forall a b : Z,
      (a, b) ∈ res <->
      (0 <= a < b /\ b < 3 /\
       exists d, distances_at [[0; 1; 2]; [1; 0; 1]; [2; 1; 0]]
                   (Z.to_nat a) (Z.to_nat b) = Ok d /\ d <= 1).
Proof.
  apply (compute_clusters_spec {| distances := [[0; 1; 2]; [1; 0; 1]; [2; 1; 0]] |} 1).
  repeat constructor.
Defined.

(** The table of a three-node path, as [compute_clusters] builds it. *)
Example compute_clusters_path3 :
  compute_clusters {| distances := [[0; 1; 2]; [1; 0; 1]; [2; 1; 0]] |} 1
  = Ok [(0, 1); (1, 2)].
Proof. reflexivity. Qed.

(** A table with a short row makes [distances[i][j]] raise. *)
Example compute_clusters_ragged :
  compute_clusters {| distances := [[0; 1; 2]; [1; 0]; [2; 1; 0]] |} 1
  = Raise IndexError.
Proof. reflexivity. Qed.

(** C5. [ExchangeRule] returns a rule exactly when one of [clusters] and
    [graph] is given and the other is not; with both or with neither it
    raises [ValueError]. The distance table of a given graph is square. *)
Theorem ExchangeRule_validation (clusters0 : option (list (Z * Z)))
    (graph : option Graph) (d_max : Z) :
  (forall g, graph = Some g -> square_table (distances g)) ->
  (xorb (bool_decide (is_Some clusters0)) (bool_decide (is_Some graph)) = true ->
   exists rule0, ExchangeRule clusters0 graph d_max = Ok rule0 /\
     (forall c, clusters0 = Some c -> clusters rule0 = c) /\
     (forall g, graph = Some g -> compute_clusters g d_max = Ok (clusters rule0))) /\
  (xorb (bool_decide (is_Some clusters0)) (bool_decide (is_Some graph)) = false ->
   ExchangeRule clusters0 graph d_max = Raise ValueError).
Proof.
  intros Hsq. destruct clusters0 as [c|], graph as [g|]; simpl.
  - split; [discriminate|reflexivity].
  - split; [|discriminate]. intros _. unfold ExchangeRule. simpl.
    eexists. split; [reflexivity|]. split; [|discriminate].
    intros c0 Hc. now injection Hc as <-.
  - split; [|discriminate]. intros _.
    destruct (compute_clusters_total g d_max (Hsq g eq_refl)) as (res & Hres).
    unfold ExchangeRule. rewrite Hres. simpl.
    eexists. split; [reflexivity|]. split; [discriminate|].
    intros g0 Hg. injection Hg as <-. exact Hres.
  - split; [discriminate|reflexivity].
Qed.

Lemma ExchangeRule_validation_witness :
  (xorb (bool_decide (is_Some (@None (list (Z * Z)))))
        (bool_decide (is_Some (Some {| distances := [[0; 1]; [1; 0]] |}))) = true ->
   exists rule0,
     ExchangeRule None (Some {| distances := [[0; 1]; [1; 0]] |}) 1 = Ok rule0 /\
     (forall c, None = Some c -> clusters rule0 = c) /\
     (forall g, Some {| distances := [[0; 1]; [1; 0]] |} = Some g ->
                compute_clusters g 1 = Ok (clusters rule0))) /\
  (xorb (bool_decide (is_Some (@None (list (Z * Z)))))
        (bool_decide (is_Some (Some {| distances := [[0; 1]; [1; 0]] |}))) = false ->
   ExchangeRule None (Some {| distances := [[0; 1]; [1; 0]] |}) 1 = Raise ValueError).
Proof.
  apply (ExchangeRule_validation None (Some {| distances := [[0; 1]; [1; 0]] |}) 1).
  intros g Hg. injection Hg as <-. repeat constructor.
Defined.

(** ** The exchange move *)

Lemma insert_head_perm {A : Type} (l : list A) (j : nat) (b x : A) :
  l !! j = Some b -> b :: <[j := x]> l ≡ₚ x :: l.
Proof.
  revert j. induction l as [|y l IH]; intros [|j] Hj; simpl in *; try discriminate.
  - injection Hj as ->. apply perm_swap.
  - rewrite perm_swap, (IH j Hj). apply perm_swap.
Qed.

Lemma insert_swap_perm {A : Type} (l : list A) (i j : nat) (a b : A) :
  l !! i = Some a -> l !! j = Some b -> <[j := a]> (<[i := b]> l) ≡ₚ l.
Proof.
  revert i j. induction l as [|y l IH]; intros [|i] [|j] Hi Hj;
    simpl in *; try discriminate.
  - injection Hi as ->. reflexivity.
  - injection Hi as ->. now apply insert_head_perm.
  - injection Hj as ->. now apply insert_head_perm.
  - f_equiv. now apply IH.
Qed.

Lemma jnp_sum_perm (x y : list Z) : x ≡ₚ y -> jnp_sum x = jnp_sum y.
Proof.
  induction 1 as [|a x y _ IH|a b x|x y z _ IH1 _ IH2]; simpl in *; lia.
Qed.

Lemma normalize_index_in_range (n : nat) (i : Z) :
  site_in_range n i -> 0 <= normalize_index n i < Z.of_nat n.
Proof.
  unfold site_in_range, normalize_index. intros Hi.
  destruct (Z.ltb_spec i 0); lia.
Qed.

Lemma index_update_in_range {A : Type} (x : list A) (i : Z) (v : A) :
  site_in_range (length x) i ->
  index_update x i v = <[Z.to_nat (normalize_index (length x) i) := v]> x.
Proof.
  intros Hi. apply normalize_index_in_range in Hi. unfold index_update.
  destruct (Z.leb_spec 0 (normalize_index (length x) i)); [|lia].
  destruct (Z.ltb_spec (normalize_index (length x) i) (Z.of_nat (length x))); [|lia].
  reflexivity.
Qed.

Lemma jnp_getitem_in_range {A : Type} (dflt : A) (x : list A) (i : Z) :
  site_in_range (length x) i ->
  x !! Z.to_nat (normalize_index (length x) i) = Some (jnp_getitem dflt x i).
Proof.
  intros Hi. apply normalize_index_in_range in Hi. unfold jnp_getitem.
  rewrite Z.min_l, Z.max_r by lia.
  destruct (nth_lookup_or_length x (Z.to_nat (normalize_index (length x) i)) dflt)
    as [Hl|Hl]; [exact Hl|lia].
Qed.

(** A clamped lookup in a table with at least one row returns one of its
    rows. *)
Lemma jnp_getitem_elem_of {A : Type} (dflt : A) (x : list A) (i : Z) :
  x <> [] -> jnp_getitem dflt x i ∈ x.
Proof.
  intros Hne. unfold jnp_getitem. apply nth_elem_of.
  destruct x as [|a x]; [congruence|]. simpl length. lia.
Qed.

(** The exchange of one chain: the two sites trade their values. *)
Lemma scalar_update_fun_swap (rule0 : ExchangeRule_) (σ0 : list Z) (cluster : Z) :
  let si := fst (jnp_getitem (0, 0) (clusters rule0) cluster) in
  let sj := snd (jnp_getitem (0, 0) (clusters rule0) cluster) in
  let ki := Z.to_nat (normalize_index (length σ0) si) in
  let kj := Z.to_nat (normalize_index (length σ0) sj) in
  site_in_range (length σ0) si -> site_in_range (length σ0) sj ->
  scalar_update_fun rule0 σ0 cluster !! ki = σ0 !! kj /\
  scalar_update_fun rule0 σ0 cluster !! kj = σ0 !! ki /\
  (forall k, k <> ki -> k <> kj -> scalar_update_fun rule0 σ0 cluster !! k = σ0 !! k) /\
  scalar_update_fun rule0 σ0 cluster ≡ₚ σ0.
Proof.
  intros si sj ki kj Hsi Hsj.
  pose proof (jnp_getitem_in_range 0 σ0 si Hsi) as Hi. fold ki in Hi.
  pose proof (jnp_getitem_in_range 0 σ0 sj Hsj) as Hj. fold kj in Hj.
  assert (Hki : (ki < length σ0)%nat) by (eapply lookup_lt_Some, Hi).
  assert (Hkj : (kj < length σ0)%nat) by (eapply lookup_lt_Some, Hj).
  assert (Heq : scalar_update_fun rule0 σ0 cluster
                = <[kj := jnp_getitem 0 σ0 si]> (<[ki := jnp_getitem 0 σ0 sj]> σ0)).
  { unfold scalar_update_fun. fold si sj.
    rewrite (index_update_in_range σ0 si) by exact Hsi. fold ki.
    rewrite index_update_in_range by (rewrite length_insert; exact Hsj).
    rewrite length_insert. reflexivity. }
  rewrite Heq. split; [|split; [|split]].
  - destruct (decide (kj = ki)) as [E|Hne].
    + rewrite E in *. rewrite list_lookup_insert_eq by (rewrite length_insert; lia).
      now rewrite Hi.
    + rewrite list_lookup_insert_ne by exact Hne.
      rewrite list_lookup_insert_eq by lia. now rewrite Hj.
  - rewrite list_lookup_insert_eq by (rewrite length_insert; lia). now rewrite Hi.
  - intros k Hk1 Hk2. rewrite !list_lookup_insert_ne by congruence. reflexivity.
  - now apply insert_swap_perm.
Qed.

Lemma jnp_where_Forall2 {A : Type} (R : relation A) `{!Reflexive R}
    (c : list bool) (x y : list A) :
  length c = length y -> Forall2 R x y -> Forall2 R (jnp_where c x y) y.
Proof.
  intros Hc Hxy. revert c Hc.
  induction Hxy as [|a b x y Hab _ IH]; intros [|f c] Hc; simpl in *;
    try discriminate; [constructor|].
  unfold jnp_where. simpl. constructor.
  - destruct f; [exact Hab|reflexivity].
  - apply IH. lia.
Qed.

Lemma Forall2_perm_sums (x y : list (list Z)) :
  Forall2 (≡ₚ) x y -> jnp_sum <$> x = jnp_sum <$> y.
Proof.
  induction 1 as [|a b x y Hab _ IH]; [reflexivity|].
  rewrite !fmap_cons. now rewrite (jnp_sum_perm a b Hab), IH.
Qed.

Lemma Forall2_perm_row_length (x y : list (list Z)) (n : nat) :
  Forall2 (≡ₚ) x y -> Forall (fun row => length row = n) y ->
  Forall (fun row => length row = n) x.
Proof.
  induction 1 as [|a b x y Hab _ IH]; intros Hy; [constructor|].
  inversion_clear Hy as [|? ? Hb Hy']. constructor; [|now apply IH].
  now rewrite (Permutation_length Hab).
Qed.

Lemma Forall2_perm_refl (x : list (list Z)) : Forall2 (≡ₚ) x x.
Proof. induction x as [|a x IH]; constructor; [reflexivity|exact IH]. Qed.

Lemma Forall2_perm_trans (x y z : list (list Z)) :
  Forall2 (≡ₚ) x y -> Forall2 (≡ₚ) y z -> Forall2 (≡ₚ) x z.
Proof.
  intros Hxy. revert z. induction Hxy as [|a b x y Hab _ IH]; intros z Hyz.
  - inversion Hyz. constructor.
  - inversion_clear Hyz as [|? c ? z' Hbc Hyz']. constructor; [|now apply IH].
    now rewrite Hab.
Qed.

Section ExchangeFacts.
Context `{PRNG}.
Context {PyTree RuleState : Type}.
Variable sampler : MetropolisSampler ExchangeRule_.
Variable machine : Machine (PyTree := PyTree).
Variable parameters : PyTree.
Variable n_sites : nat.
Hypothesis clusters_nonempty : clusters (rule sampler) <> [].
Hypothesis clusters_sites : clusters_in_range (rule sampler) n_sites.
Hypothesis machine_shape : forall p σ0, length (machine p σ0) = length σ0.

Lemma chosen_cluster_in_range (cluster : Z) :
  site_in_range n_sites (fst (jnp_getitem (0, 0) (clusters (rule sampler)) cluster)) /\
  site_in_range n_sites (snd (jnp_getitem (0, 0) (clusters (rule sampler)) cluster)).
Proof using clusters_nonempty clusters_sites.
  unfold clusters_in_range in clusters_sites.
  rewrite Forall_forall in clusters_sites.
  apply clusters_sites. now apply jnp_getitem_elem_of.
Qed.

Lemma scalar_update_fun_perm (row : list Z) (cluster : Z) :
  length row = n_sites -> scalar_update_fun (rule sampler) row cluster ≡ₚ row.
Proof using clusters_nonempty clusters_sites.
  intros Hrow. destruct (chosen_cluster_in_range cluster) as [Hi Hj].
  rewrite <- Hrow in Hi, Hj.
  apply (scalar_update_fun_swap (rule sampler) row cluster Hi Hj).
Qed.

Lemma zip_with_update_perm (σ0 : Batch) (ids : list Z) :
  length ids = length σ0 ->
  Forall (fun row => length row = n_sites) σ0 ->
  Forall2 (≡ₚ) (zip_with (scalar_update_fun (rule sampler)) σ0 ids) σ0.
Proof using clusters_nonempty clusters_sites.
  intros Hlen Hrows. revert ids Hlen.
  induction Hrows as [|row σ0 Hrow _ IH]; intros [|c ids] Hlen; simpl in *;
    try discriminate; [constructor|].
  constructor; [now apply scalar_update_fun_perm|]. apply IH. lia.
Qed.

Lemma exchange_transition_perm (state : MetropolisSamplerState RuleState)
    (key : PRNGKey) (σ0 : Batch) :
  Forall (fun row => length row = n_sites) σ0 ->
  Forall2 (≡ₚ)
    (fst (transition (rule sampler) sampler machine parameters state key σ0)) σ0.
Proof using clusters_nonempty clusters_sites.
  intros Hrows. simpl. apply zip_with_update_perm; [|exact Hrows].
  now rewrite length_fmap, length_seq.
Qed.

Lemma exchange_well_shaped (state : MetropolisSamplerState RuleState) :
  length (σ state) = Z.to_nat (n_chains sampler) ->
  well_shaped sampler machine parameters state.
Proof using machine_shape.
  intros Hlen. split; [exact Hlen|]. split; [apply machine_shape|].
  intros key σ0 σp0 corr Ht. simpl in Ht. unfold ExchangeRule_transition in Ht.
  injection Ht as <- <-. split; [|discriminate].
  rewrite length_zip_with, length_fmap, length_seq. lia.
Qed.

Lemma exchange_round_perm (state : MetropolisSamplerState RuleState) (s : Scope) :
  well_shaped sampler machine parameters state ->
  scope_shaped sampler s ->
  Forall (fun row => length row = n_sites) (s_σ s) ->
  Forall2 (≡ₚ) (s_σ (sweep_round sampler machine parameters state s)) (s_σ s).
Proof using clusters_nonempty clusters_sites.
  intros Hw Hs Hrows.
  destruct (propose_shapes sampler machine parameters state s Hw Hs) as (_ & _ & Hacc).
  unfold sweep_round. cbn [s_σ]. apply jnp_where_Forall2; [apply _| |].
  - destruct Hs as [Hs _]. rewrite Hs. exact Hacc.
  - rewrite propose_sigma_p. now apply exchange_transition_perm.
Qed.

Lemma exchange_range_perm (state : MetropolisSamplerState RuleState)
    (n : nat) (s : Scope) :
  well_shaped sampler machine parameters state ->
  scope_shaped sampler s ->
  Forall (fun row => length row = n_sites) (s_σ s) ->
  Forall2 (≡ₚ)
    (s_σ (scope_range n (sweep_round sampler machine parameters state) s)) (s_σ s).
Proof using clusters_nonempty clusters_sites.
  intros Hw. revert s. induction n as [|n IH]; intros s Hs Hrows; simpl.
  - apply Forall2_perm_refl.
  - pose proof (exchange_round_perm state s Hw Hs Hrows) as Hstep.
    eapply Forall2_perm_trans; [|exact Hstep].
    apply IH; [now apply sweep_round_shaped|].
    eapply Forall2_perm_row_length; [exact Hstep|exact Hrows].
Qed.

Lemma exchange_sample_next_perm (state : MetropolisSamplerState RuleState) :
  length (σ state) = Z.to_nat (n_chains sampler) ->
  Forall (fun row => length row = n_sites) (σ state) ->
  Forall2 (≡ₚ) (σ (fst (_sample_next sampler machine parameters state))) (σ state).
Proof using clusters_nonempty clusters_sites machine_shape.
  intros Hlen Hrows. pose proof (exchange_well_shaped state Hlen) as Hw.
  unfold _sample_next. simpl.
  apply (exchange_range_perm state _ (scope_init sampler machine parameters state) Hw).
  - now apply scope_init_shaped.
  - exact Hrows.
Qed.

Lemma exchange_run_perm (state : MetropolisSamplerState RuleState) (calls : nat) :
  length (σ state) = Z.to_nat (n_chains sampler) ->
  Forall (fun row => length row = n_sites) (σ state) ->
  Forall2 (≡ₚ)
    (σ (Nat.iter calls
          (fun st => fst (_sample_next sampler machine parameters st)) state))
    (σ state).
Proof using clusters_nonempty clusters_sites machine_shape.
  intros Hlen Hrows. induction calls as [|calls IH]; simpl.
  - apply Forall2_perm_refl.
  - eapply Forall2_perm_trans; [|exact IH].
    apply exchange_sample_next_perm.
    + rewrite <- Hlen. now apply Forall2_length in IH.
    + eapply Forall2_perm_row_length; [exact IH|exact Hrows].
Qed.

Lemma exchange_transition_lookup (state : MetropolisSamplerState RuleState)
    (key : PRNGKey) (σ0 : list (list Z)) (i : nat) (row : list Z) :
  σ0 !! i = Some row ->
  fst (transition (rule sampler) sampler machine parameters state key σ0) !! i
  = Some (scalar_update_fun (rule sampler) row
            (jax_random_randint key (length σ0) 0
               (Z.of_nat (length (clusters (rule sampler)))) i)).
Proof.
  intros Hrow.
  change (fst (transition (rule sampler) sampler machine parameters state key σ0))
    with (zip_with (scalar_update_fun (rule sampler)) σ0
            (jax_random_randint key (length σ0) 0
               (Z.of_nat (length (clusters (rule sampler))))
               <$> seq 0 (length σ0))).
  etransitivity; [exact (lookup_zip_with _ _ _ _)|].
  rewrite Hrow, list_lookup_fmap, lookup_seq_lt by (eapply lookup_lt_Some, Hrow).
  reflexivity.
Qed.

(** C4. With a cluster table whose rows name sites of the configurations,
    the exchange move of a chain puts the value of each of the two sites
    of the chosen table row at the other and keeps every other site; the
    transition proposes, for chain [i], that move on its configuration
    with the row drawn for [i], and returns no correction.  So the
    proposed configuration of each chain is a permutation of its
    configuration and has the same sum; and after any number of calls of
    [_sample_next] with the Exchange rule each chain still holds a
    permutation of the configuration it started from, with the same
    sum. *)
Theorem exchange_conservation (state : MetropolisSamplerState RuleState) :
  length (σ state) = Z.to_nat (n_chains sampler) ->
  Forall (fun row => length row = n_sites) (σ state) ->
  (forall (row : list Z) (cluster : Z),
      length row = n_sites ->
      let si := fst (jnp_getitem (0, 0) (clusters (rule sampler)) cluster) in
      let sj := snd (jnp_getitem (0, 0) (clusters (rule sampler)) cluster) in
      let ki := Z.to_nat (normalize_index n_sites si) in
      let kj := Z.to_nat (normalize_index n_sites sj) in
      let row' := scalar_update_fun (rule sampler) row cluster in
      (si, sj) ∈ clusters (rule sampler) /\
      (ki < n_sites)%nat /\ (kj < n_sites)%nat /\
      row' !! ki = row !! kj /\ row' !! kj = row !! ki /\
      (forall k, k <> ki -> k <> kj -> row' !! k = row !! k) /\
      row' ≡ₚ row /\ jnp_sum row' = jnp_sum row) /\
  (forall (st : MetropolisSamplerState RuleState) (key : PRNGKey)
          (σ0 : list (list Z)),
      Forall (fun row => length row = n_sites) σ0 ->
      let σp0 := fst (transition (rule sampler) sampler machine parameters st key σ0) in
      snd (transition (rule sampler) sampler machine parameters st key σ0) = None /\
      length σp0 = length σ0 /\
      (forall (i : nat) (row : list Z),
          σ0 !! i = Some row ->
          σp0 !! i
          = Some (scalar_update_fun (rule sampler) row
                    (jax_random_randint key (length σ0) 0
                       (Z.of_nat (length (clusters (rule sampler)))) i))) /\
      Forall2 (≡ₚ) σp0 σ0 /\ jnp_sum <$> σp0 = jnp_sum <$> σ0) /\
  (forall calls : nat,
      let final :=
        Nat.iter calls
          (fun st => fst (_sample_next sampler machine parameters st)) state in
      Forall2 (≡ₚ) (σ final) (σ state) /\
      jnp_sum <$> σ final = jnp_sum <$> σ state).
Proof using clusters_nonempty clusters_sites machine_shape.
  intros Hlen Hrows. split; [|split].
  - intros row cluster Hrow si sj ki kj row'.
    destruct (chosen_cluster_in_range cluster) as [Hi Hj]. fold si in Hi. fold sj in Hj.
    pose proof (normalize_index_in_range n_sites si Hi) as Hki.
    pose proof (normalize_index_in_range n_sites sj Hj) as Hkj.
    rewrite <- Hrow in Hi, Hj.
    destruct (scalar_update_fun_swap (rule sampler) row cluster Hi Hj)
      as (H1 & H2 & H3 & H4).
    rewrite Hrow in H1, H2, H3.
    split.
    { unfold si, sj. rewrite <- surjective_pairing.
      now apply jnp_getitem_elem_of. }
    repeat split; try assumption; try (unfold ki, kj; lia).
    now apply jnp_sum_perm.
  - intros st key σ0 Hσ0 σp0.
    pose proof (exchange_transition_perm st key σ0 Hσ0) as Hp.
    split; [reflexivity|]. split; [now apply Forall2_length in Hp|].
    split; [intros i row; apply exchange_transition_lookup|].
    split; [exact Hp|]. now apply Forall2_perm_sums.
  - intros calls final.
    pose proof (exchange_run_perm state calls Hlen Hrows) as Hp.
    split; [exact Hp|]. now apply Forall2_perm_sums.
Qed.

End ExchangeFacts.

(** ** The statements on the concrete instance *)

(** The scope after the first round of the four-site chain. *)
Lemma chain4_first_round :
  sweep_round chain4_sampler first_site_machine tt chain4_state
    (scope_init chain4_sampler first_site_machine tt chain4_state)
  = {| s_key := 1217104675 : @PRNGKey fixed_numeric lcg_prng;
       s_σ := [[1; -1; 1; -1]; [1; -1; -1; 1]];
       s_log_prob := [2; 2] : list (@real fixed_numeric);
       s_accepted := 2 |}.
Proof. reflexivity. Qed.

(** In the second round the first chain proposes to lower its first site:
    the log-probability drops by 4 and the move is rejected. *)
Lemma sweep_round_accept_rule_witness :
  let s := sweep_round chain4_sampler first_site_machine tt chain4_state
             (scope_init chain4_sampler first_site_machine tt chain4_state) in
  do_accept (propose chain4_sampler first_site_machine tt chain4_state s) !! 0%nat
    = Some false /\
  s_σ (sweep_round chain4_sampler first_site_machine tt chain4_state s) !! 0%nat
    = Some [1; -1; 1; -1] /\
  s_log_prob (sweep_round chain4_sampler first_site_machine tt chain4_state s) !! 0%nat
    = Some (2 : @real fixed_numeric).
Proof.
  intros s.
  apply (sweep_round_accept_rule chain4_sampler first_site_machine tt chain4_state
           s 0%nat [[-1; 1; 1; -1]; [1; -1; -1; 1]] None
           [1; -1; 1; -1] [-1; 1; 1; -1]
           (2 : @real fixed_numeric) (-2 : @real fixed_numeric)
           (-4 : @real fixed_numeric)).
  - reflexivity.
  - simpl. lia.
  - reflexivity.
  - reflexivity.
  - reflexivity.
  - reflexivity.
  - reflexivity.
Defined.

Lemma first_site_machine_shape (p : unit) (σ0 : Batch) :
  length (first_site_machine p σ0) = length σ0.
Proof. unfold first_site_machine. apply length_fmap. Qed.

Lemma chain4_well_shaped :
  well_shaped chain4_sampler first_site_machine tt chain4_state.
Proof.
  apply exchange_well_shaped; [exact first_site_machine_shape|reflexivity].
Qed.

Lemma sample_next_counters_bounded_witness :
  let new_state := fst (_sample_next chain4_sampler first_site_machine tt chain4_state) in
  n_samples new_state = 8 /\
  n_accepted new_state = Int32 7 /\
  0 <= counter_value (n_accepted new_state) <= n_samples new_state.
Proof.
  intros new_state.
  destruct (sample_next_counters_bounded chain4_sampler first_site_machine tt chain4_state)
    as (Hsamples & _ & _ & _ & Hinv).
  - exact chain4_well_shaped.
  - simpl. lia.
  - simpl. lia.
  - unfold int32_range. simpl. lia.
  - destruct Hinv as [Haccepted Hinv]; [simpl; lia|].
    split; [exact Hsamples|]. split; [exact Haccepted|].
    apply Hinv. simpl. lia.
Defined.

(** C3, where the code leaves it. From a state whose accepted counter is
    the largest int32 (with [0 <= n_accepted <= n_samples]), a call in
    which 7 proposals are accepted returns a negative accepted counter:
    it is not the old counter plus 7, and [0 <= n_accepted] is lost. *)
Theorem sample_next_accepted_overflow :
  let new_state := fst (_sample_next chain4_sampler first_site_machine tt saturated_state) in
  let flags :=
    accept_flags chain4_sampler first_site_machine tt saturated_state
      (Z.to_nat (n_sweeps chain4_sampler))
      (scope_init chain4_sampler first_site_machine tt saturated_state) in
  0 <= counter_value (n_accepted saturated_state) <= n_samples saturated_state /\
  accept_total flags = 7 /\
  n_samples new_state = n_samples saturated_state + 8 /\
  n_accepted new_state = Int32 (-2147483642) /\
  counter_value (n_accepted new_state)
    <> counter_value (n_accepted saturated_state) + accept_total flags /\
  ~ (0 <= counter_value (n_accepted new_state) <= n_samples new_state).
Proof.
  assert (Hacc : n_accepted (fst (_sample_next chain4_sampler first_site_machine tt
                                    saturated_state)) = Int32 (-2147483642))
    by reflexivity.
  assert (Hflags : accept_total
                     (accept_flags chain4_sampler first_site_machine tt saturated_state
                        (Z.to_nat (n_sweeps chain4_sampler))
                        (scope_init chain4_sampler first_site_machine tt saturated_state))
                   = 7) by reflexivity.
  cbv zeta. rewrite Hacc, Hflags. simpl.
  repeat split; try lia; try reflexivity.
Qed.

Lemma exchange_conservation_witness :
  let final :=
    Nat.iter 3
      (fun st => fst (_sample_next chain4_sampler first_site_machine tt st))
      chain4_state in
  (fst (transition (rule chain4_sampler) chain4_sampler first_site_machine tt
          chain4_state (43 : @PRNGKey fixed_numeric lcg_prng) (σ chain4_state))
     !! 0%nat
   = Some (scalar_update_fun chain4_rule [1; 1; -1; -1] 1) /\
   scalar_update_fun chain4_rule [1; 1; -1; -1] 1 = [1; -1; 1; -1]) /\
  Forall2 (≡ₚ) (σ final) (σ chain4_state) /\
  jnp_sum <$> σ final = jnp_sum <$> σ chain4_state.
Proof.
  assert (Hsites : clusters_in_range (rule chain4_sampler) 4).
  { repeat constructor; simpl; lia. }
  assert (Hrows : Forall (fun row => length row = 4%nat) (σ chain4_state)).
  { repeat constructor. }
  destruct (exchange_conservation chain4_sampler first_site_machine tt 4%nat
              ltac:(discriminate) Hsites first_site_machine_shape
              chain4_state eq_refl Hrows) as (_ & Hmove & Hrun).
  split; [|exact (Hrun 3%nat)]. split; [|reflexivity].
  destruct (Hmove chain4_state (43 : @PRNGKey fixed_numeric lcg_prng)
              (σ chain4_state) Hrows) as (_ & _ & Hlink & _).
  exact (Hlink 0%nat [1; 1; -1; -1] eq_refl).
Defined.

(** A table row that names no site of the configuration breaks the
    exchange: the read is clamped to the last site and the write is
    dropped. *)
Example scalar_update_fun_out_of_range :
  scalar_update_fun {| clusters := [(0, 5)] |} [1; 2; 3; 4] 0 = [4; 2; 3; 4].
Proof. reflexivity. Qed.

(** A negative site counts from the end. *)
Example scalar_update_fun_negative_site :
  scalar_update_fun {| clusters := [(0, -1)] |} [1; 2; 3; 4] 0 = [4; 2; 3; 1].
Proof. reflexivity. Qed.

Lemma init_state_spec_witness :
  exists st : @MetropolisSamplerState fixed_numeric lcg_prng unit,
    _init_state chain4_sampler first_site_machine tt (7 : @PRNGKey fixed_numeric lcg_prng)
      = Ok st /\
    rng st = jax_random_split (7 : @PRNGKey fixed_numeric lcg_prng) 2 0 /\
    rule_state st
      = init_state (rule chain4_sampler) chain4_sampler first_site_machine tt
          (jax_random_split (7 : @PRNGKey fixed_numeric lcg_prng) 2 1) /\
    length (σ st) = 2%nat /\
    Forall (fun row => length row = 4%nat /\ Forall (fun v => v = 0) row) (σ st) /\
    n_samples st = 0 /\ n_accepted st = PyInt 0.
Proof.
  apply (init_state_spec chain4_sampler first_site_machine tt
           (7 : @PRNGKey fixed_numeric lcg_prng)).
  - simpl. lia.
  - simpl. lia.
Defined.

(** With no chain, [_init_state] returns a state with an empty batch. *)
Lemma init_state_zero_chains :
  (n_chains chainless_sampler <= 0 \/ size (hilbert chainless_sampler) <= 0) /\
  _init_state chainless_sampler first_site_machine tt (7 : @PRNGKey fixed_numeric lcg_prng)
  = Ok (@Build_MetropolisSamplerState fixed_numeric lcg_prng unit
          [] 1282168116 None 0 (PyInt 0)) /\
  ~ (exists e,
        _init_state (RuleState := unit) chainless_sampler first_site_machine tt
          (7 : @PRNGKey fixed_numeric lcg_prng) = Raise e).
Proof.
  split; [left; simpl; lia|]. split; [reflexivity|].
  intros [e He]. discriminate He.
Qed.

Lemma repr_acceptance_rate_percent_witness :
  exists q : Q,
    repr_acceptance_rate half_state = Ok (Finite q) /\
    (q == inject_Z 100 * (inject_Z 1 / inject_Z 2))%Q.
Proof.
  apply (repr_acceptance_rate_percent half_state). simpl. lia.
Defined.

(** On a fresh state [__repr__] divides by zero, and for one accepted move
    out of two it shows 50, not one half. *)
Lemma repr_acceptance_rate_not_ratio :
  repr_acceptance_rate chain4_state = Raise ZeroDivisionError /\
  exists q : Q,
    repr_acceptance_rate half_state = Ok (Finite q) /\
    (q == 50)%Q /\
    ~ (q == inject_Z (counter_value (n_accepted half_state))
            / inject_Z (n_samples half_state))%Q.
Proof.
  split; [reflexivity|]. eexists. split; [reflexivity|].
  split; [reflexivity|]. intros Hq. vm_compute in Hq. discriminate Hq.
Qed.

(** * Further properties of the code *)

(** ** The exchange move on one chain *)

Lemma index_update_length {A : Type} (x : list A) (i : Z) (v : A) :
  length (index_update x i v) = length x.
Proof.
  unfold index_update.
  destruct ((0 <=? _) && (_ <? _)); [apply length_insert|reflexivity].
Qed.

Lemma index_update_Forall {A : Type} (P : A -> Prop) (x : list A) (i : Z) (v : A) :
  Forall P x -> (x <> [] -> P v) -> Forall P (index_update x i v).
Proof.
  intros Hx Hv. unfold index_update.
  destruct ((0 <=? _) && (_ <? _)); [|exact Hx].
  destruct x as [|a x]; [constructor|].
  apply Forall_insert; [exact Hx|]. now apply Hv.
Qed.

Lemma jnp_getitem_Forall {A : Type} (P : A -> Prop) (dflt : A) (x : list A) (i : Z) :
  Forall P x -> x <> [] -> P (jnp_getitem dflt x i).
Proof.
  intros Hx Hne. rewrite Forall_forall in Hx. apply Hx.
  now apply jnp_getitem_elem_of.
Qed.

Lemma scalar_update_fun_length (rule0 : ExchangeRule_) (σ0 : list Z) (cluster : Z) :
  length (scalar_update_fun rule0 σ0 cluster) = length σ0.
Proof. unfold scalar_update_fun. now rewrite !index_update_length. Qed.

Lemma scalar_update_fun_Forall (P : Z -> Prop) (rule0 : ExchangeRule_)
    (σ0 : list Z) (cluster : Z) :
  Forall P σ0 -> Forall P (scalar_update_fun rule0 σ0 cluster).
Proof.
  intros Hσ. unfold scalar_update_fun.
  apply index_update_Forall; [apply index_update_Forall|].
  - exact Hσ.
  - intros Hne. now apply jnp_getitem_Forall.
  - intros Hne. apply jnp_getitem_Forall; [exact Hσ|].
    intros ->. apply Hne. apply length_zero_iff_nil.
    now rewrite index_update_length.
Qed.

(** X1. Exchanging the sites of a cluster twice gives the configuration
    back. *)
Theorem scalar_update_fun_involutive (rule0 : ExchangeRule_) (σ0 : list Z)
    (cluster : Z) :
  site_in_range (length σ0) (fst (jnp_getitem (0, 0) (clusters rule0) cluster)) ->
  site_in_range (length σ0) (snd (jnp_getitem (0, 0) (clusters rule0) cluster)) ->
  scalar_update_fun rule0 (scalar_update_fun rule0 σ0 cluster) cluster = σ0.
Proof.
  intros Hi Hj.
  pose proof (scalar_update_fun_length rule0 σ0 cluster) as Hlen.
  destruct (scalar_update_fun_swap rule0 σ0 cluster Hi Hj) as (A1 & A2 & A3 & _).
  assert (Hi' := Hi). assert (Hj' := Hj). rewrite <- Hlen in Hi', Hj'.
  destruct (scalar_update_fun_swap rule0 _ cluster Hi' Hj') as (B1 & B2 & B3 & _).
  rewrite Hlen in B1, B2, B3.
  apply list_eq. intros k.
  set (ki := Z.to_nat (normalize_index (length σ0)
                         (fst (jnp_getitem (0, 0) (clusters rule0) cluster)))) in *.
  set (kj := Z.to_nat (normalize_index (length σ0)
                         (snd (jnp_getitem (0, 0) (clusters rule0) cluster)))) in *.
  destruct (decide (k = ki)) as [->|Hki]; [now rewrite B1, A2|].
  destruct (decide (k = kj)) as [->|Hkj]; [now rewrite B2, A1|].
  now rewrite B3, A3.
Qed.

Lemma scalar_update_fun_involutive_witness :
  scalar_update_fun chain4_rule (scalar_update_fun chain4_rule [1; 1; -1; -1] 1) 1
  = [1; 1; -1; -1].
Proof.
  apply (scalar_update_fun_involutive chain4_rule [1; 1; -1; -1] 1);
    unfold site_in_range; simpl; lia.
Defined.

(** X2. When the two sites of the chosen cluster hold the same value, the
    proposed configuration is the current one. *)
Theorem scalar_update_fun_equal_sites (rule0 : ExchangeRule_) (σ0 : list Z)
    (cluster : Z) :
  let si := fst (jnp_getitem (0, 0) (clusters rule0) cluster) in
  let sj := snd (jnp_getitem (0, 0) (clusters rule0) cluster) in
  site_in_range (length σ0) si -> site_in_range (length σ0) sj ->
  jnp_getitem 0 σ0 si = jnp_getitem 0 σ0 sj ->
  scalar_update_fun rule0 σ0 cluster = σ0.
Proof.
  intros si sj Hi Hj Heq.
  destruct (scalar_update_fun_swap rule0 σ0 cluster Hi Hj) as (A1 & A2 & A3 & _).
  pose proof (jnp_getitem_in_range 0 σ0 si Hi) as Li.
  pose proof (jnp_getitem_in_range 0 σ0 sj Hj) as Lj.
  fold si sj in A1, A2, A3.
  apply list_eq. intros k.
  destruct (decide (k = Z.to_nat (normalize_index (length σ0) si))) as [->|Hki];
    [now rewrite A1, Li, Lj, Heq|].
  destruct (decide (k = Z.to_nat (normalize_index (length σ0) sj))) as [->|Hkj];
    [now rewrite A2, Li, Lj, Heq|].
  now apply A3.
Qed.

Lemma scalar_update_fun_equal_sites_witness :
  scalar_update_fun chain4_rule [1; 1; -1; -1] 0 = [1; 1; -1; -1].
Proof.
  apply (scalar_update_fun_equal_sites chain4_rule [1; 1; -1; -1] 0);
    [unfold site_in_range; simpl; lia | unfold site_in_range; simpl; lia | reflexivity].
Defined.

(** ** The exchange move on a batch *)

Lemma zip_with_Forall2_l {A B : Type} (R : A -> A -> Prop) (f : A -> B -> A)
    (x : list A) (ids : list B) :
  length ids = length x -> (forall a b, R (f a b) a) ->
  Forall2 R (zip_with f x ids) x.
Proof.
  intros Hlen Hf. revert ids Hlen.
  induction x as [|a x IH]; intros [|b ids] Hlen; simpl in *;
    try discriminate; constructor; [apply Hf|apply IH; lia].
Qed.

Lemma zip_with_Forall_l {A B : Type} (Q : A -> Prop) (f : A -> B -> A)
    (x : list A) (ids : list B) :
  (forall a b, Q a -> Q (f a b)) -> Forall Q x -> Forall Q (zip_with f x ids).
Proof.
  intros Hf Hx. revert ids.
  induction Hx as [|a x Ha _ IH]; intros [|b ids]; simpl; constructor;
    [now apply Hf|apply IH].
Qed.

Lemma jnp_where_Forall {A : Type} (Q : A -> Prop) (c : list bool) (x y : list A) :
  Forall Q x -> Forall Q y -> Forall Q (jnp_where c x y).
Proof.
  intros Hx. revert c y.
  induction Hx as [|a x Ha _ IH]; intros [|b c] y Hy; unfold jnp_where; simpl;
    try constructor.
  destruct Hy as [|a' y Ha' Hy]; simpl; constructor.
  - now destruct b.
  - now apply IH.
Qed.

Section ExchangeBatch.
Context `{PRNG}.
Context {PyTree RuleState : Type}.
Variable sampler : MetropolisSampler ExchangeRule_.
Variable machine : Machine (PyTree := PyTree).
Variable parameters : PyTree.

(** X3. With a cluster table of at least one row, whatever its rows
    hold, the Exchange rule proposes a batch of the shape of the batch it
    is given, each proposed configuration holds only values of the
    configuration it comes from, and no correction is returned. *)
Theorem exchange_transition_shape (state : MetropolisSamplerState RuleState)
    (key : PRNGKey) (σ0 : Batch) :
  clusters (rule sampler) <> [] ->
  snd (transition (rule sampler) sampler machine parameters state key σ0) = None /\
  Forall2 (fun row' row =>
             length row' = length row /\ forall v, v ∈ row' -> v ∈ row)
    (fst (transition (rule sampler) sampler machine parameters state key σ0)) σ0.
Proof.
  intros _. split; [reflexivity|]. simpl. apply zip_with_Forall2_l.
  - now rewrite length_fmap, length_seq.
  - intros row c. split; [apply scalar_update_fun_length|].
    intros v Hv.
    pose proof (scalar_update_fun_Forall (fun w => w ∈ row) (rule sampler) row c) as Hall.
    rewrite !Forall_forall in Hall. apply Hall; [auto|exact Hv].
Qed.

Variable legal : Z -> Prop.

Lemma exchange_round_legal (state : MetropolisSamplerState RuleState) (s : Scope) :
  Forall (Forall legal) (s_σ s) ->
  Forall (Forall legal) (s_σ (sweep_round sampler machine parameters state s)).
Proof.
  intros Hs. unfold sweep_round. cbn [s_σ].
  apply jnp_where_Forall; [|exact Hs].
  rewrite propose_sigma_p. simpl. apply zip_with_Forall_l; [|exact Hs].
  intros row c. apply scalar_update_fun_Forall.
Qed.

Lemma exchange_range_legal (state : MetropolisSamplerState RuleState)
    (n : nat) (s : Scope) :
  Forall (Forall legal) (s_σ s) ->
  Forall (Forall legal)
    (s_σ (scope_range n (sweep_round sampler machine parameters state) s)).
Proof.
  revert s. induction n as [|n IH]; intros s Hs; simpl; [exact Hs|].
  now apply IH, exchange_round_legal.
Qed.

(** X4. With the Exchange rule and a cluster table of at least one row,
    every site value of the sampled batches is legal as soon as the values
    of the starting batch are: a set of site values is never left, over
    any number of calls of [_sample_next] and whatever the rows of the
    table hold. *)
Theorem exchange_run_legal (state : MetropolisSamplerState RuleState) (calls : nat) :
  clusters (rule sampler) <> [] ->
  Forall (Forall legal) (σ state) ->
  Forall (Forall legal)
    (σ (Nat.iter calls
          (fun st => fst (_sample_next sampler machine parameters st)) state)).
Proof.
  intros _ Hstate. induction calls as [|calls IH]; simpl; [exact Hstate|].
  now apply exchange_range_legal.
Qed.

End ExchangeBatch.

Lemma exchange_transition_shape_witness :
  snd (transition (rule chain4_sampler) chain4_sampler first_site_machine tt
         chain4_state (42 : @PRNGKey fixed_numeric lcg_prng) (σ chain4_state)) = None /\
  Forall2 (fun row' row =>
             length row' = length row /\ forall v, v ∈ row' -> v ∈ row)
    (fst (transition (rule chain4_sampler) chain4_sampler first_site_machine tt
            chain4_state (42 : @PRNGKey fixed_numeric lcg_prng) (σ chain4_state)))
    (σ chain4_state).
Proof.
  apply (exchange_transition_shape chain4_sampler first_site_machine tt chain4_state
           (42 : @PRNGKey fixed_numeric lcg_prng) (σ chain4_state)).
  discriminate.
Defined.

Lemma exchange_run_legal_witness :
  Forall (Forall (fun v => v = 1 \/ v = -1))
    (σ (Nat.iter 2
          (fun st => fst (_sample_next chain4_sampler first_site_machine tt st))
          chain4_state)).
Proof.
  apply (exchange_run_legal chain4_sampler first_site_machine tt
           (fun v => v = 1 \/ v = -1) chain4_state 2).
  - discriminate.
  - repeat constructor; simpl; lia.
Defined.

(** ** More on the cluster table *)

Lemma for_in_range_partial {S : Type} (I : nat -> S -> Prop)
    (body : nat -> S -> result S) (a b : nat) (s s' : S) :
  (a <= b)%nat ->
  I a s ->
  (forall i s0 s1, (a <= i < b)%nat -> I i s0 -> body i s0 = Ok s1 ->
                   I (Datatypes.S i) s1) ->
  for_in (range a b) body s = Ok s' -> I b s'.
Proof.
  unfold range. intros Hab. remember (b - a)%nat as k eqn:Hk.
  revert a s Hab Hk. induction k as [|k IH]; intros a s Hab Hk Ha Hstep; simpl.
  - intros [= <-]. now replace b with a by lia.
  - destruct (body a s) as [s1|e] eqn:Hbody; simpl; [|discriminate].
    apply IH; [lia|lia| |].
    + apply (Hstep a s s1); [lia|exact Ha|exact Hbody].
    + intros i s0 s2 Hi. apply Hstep. lia.
Qed.

Lemma for_in_range_ext {S : Type} (body1 body2 : nat -> S -> result S)
    (a b : nat) (s : S) :
  (forall i s0, (a <= i < b)%nat -> body1 i s0 = body2 i s0) ->
  for_in (range a b) body1 s = for_in (range a b) body2 s.
Proof.
  unfold range. remember (b - a)%nat as k eqn:Hk.
  revert a s Hk. induction k as [|k IH]; intros a s Hk Hext; simpl; [reflexivity|].
  rewrite (Hext a s) by lia.
  destruct (body2 a s) as [s1|e]; simpl; [|reflexivity].
  apply IH; [lia|]. intros i s0 Hi. apply Hext. lia.
Qed.

Lemma for_in_raise_only {S : Type} (E : exn) (body : nat -> S -> result S)
    (xs : list nat) (s : S) (e : exn) :
  (forall x s0 e0, body x s0 = Raise e0 -> e0 = E) ->
  for_in xs body s = Raise e -> e = E.
Proof.
  intros Hbody. revert s. induction xs as [|x xs IH]; intros s; simpl; [discriminate|].
  destruct (body x s) as [s1|e1] eqn:Hx; simpl.
  - apply IH.
  - intros [= <-]. exact (Hbody x s e1 Hx).
Qed.

Lemma for_in_range_Ok_body {S : Type} (body : nat -> S -> result S)
    (a b : nat) (s s' : S) (i : nat) :
  for_in (range a b) body s = Ok s' -> (a <= i < b)%nat ->
  exists s0 s1, body i s0 = Ok s1.
Proof.
  unfold range. remember (b - a)%nat as k eqn:Hk.
  revert a s Hk. induction k as [|k IH]; intros a s Hk; simpl; [lia|].
  destruct (body a s) as [s1|e] eqn:Hbody; simpl; [|discriminate].
  intros Hrun Hi. destruct (decide (i = a)) as [->|Hne]; [now exists s, s1|].
  apply (IH (Datatypes.S a) s1); [lia|exact Hrun|lia].
Qed.

Lemma distances_at_raise (t : list (list Z)) (i j : nat) (e : exn) :
  distances_at t i j = Raise e -> e = IndexError.
Proof.
  unfold distances_at. destruct (t !! i) as [row|]; [|now intros [= <-]].
  destruct (row !! j); [discriminate|now intros [= <-]].
Qed.

(** X5. [compute_clusters] succeeds exactly when every entry of the
    distance table above the diagonal exists, and the only exception it
    raises is [IndexError]. *)
Theorem compute_clusters_index_error (graph : Graph) (d_max : Z) :
  ((exists res, compute_clusters graph d_max = Ok res) <->
   (forall i j, (i < j < length (distances graph))%nat ->
                exists d, distances_at (distances graph) i j = Ok d)) /\
  (forall e, compute_clusters graph d_max = Raise e -> e = IndexError).
Proof.
  unfold compute_clusters.
  set (t := distances graph).
  set (inner := fun (i j : nat) (clusters1 : list (nat * nat)) =>
         d <- distances_at t i j ;;
         Ok (if d <=? d_max then clusters1 ++ [(i, j)] else clusters1)).
  set (outer := fun (i : nat) (clusters0 : list (nat * nat)) =>
         for_in (range (i + 1) (length t)) (inner i) clusters0).
  change (((exists res, (clusters0 <- for_in (range 0 (length t)) outer [] ;;
                         Ok (int64_row <$> clusters0)) = Ok res) <->
           (forall i j, (i < j < length t)%nat -> exists d, distances_at t i j = Ok d)) /\
          (forall e, (clusters0 <- for_in (range 0 (length t)) outer [] ;;
                      Ok (int64_row <$> clusters0)) = Raise e -> e = IndexError)).
  split; [split|].
  - intros [res Hres] i j Hij.
    destruct (for_in (range 0 (length t)) outer []) as [cl|e] eqn:Hrun; [|discriminate].
    destruct (for_in_range_Ok_body outer 0 (length t) [] cl i Hrun) as (c0 & c1 & Hi); [lia|].
    destruct (for_in_range_Ok_body (inner i) (i + 1) (length t) c0 c1 j Hi)
      as (c2 & c3 & Hj); [lia|].
    unfold inner in Hj. destruct (distances_at t i j) as [d|e]; [now exists d|discriminate].
  - intros Hall.
    destruct (for_in_range_invariant (fun _ _ => True) outer 0 (length t) [])
      as (cl & Hrun & _); [lia|exact I| |].
    + intros i c0 Hi _.
      destruct (for_in_range_invariant (fun _ _ => True) (inner i) (i + 1) (length t) c0)
        as (c1 & Hin & _); [lia|exact I| |now exists c1].
      intros j c2 Hj _. unfold inner.
      destruct (Hall i j) as [d Hd]; [lia|]. rewrite Hd. simpl. now eexists.
    + rewrite Hrun. simpl. now eexists.
  - intros e. destruct (for_in (range 0 (length t)) outer []) as [cl|e0] eqn:Hrun;
      simpl; [discriminate|]. intros [= <-].
    apply (for_in_raise_only IndexError outer _ _ _) in Hrun; [exact Hrun|].
    intros i c0 e1. unfold outer. apply for_in_raise_only.
    intros j c1 e2. unfold inner.
    destruct (distances_at t i j) as [d|e3] eqn:Hd; simpl; [discriminate|].
    intros [= <-]. exact (distances_at_raise t i j e3 Hd).
Qed.

(** X6. [compute_clusters] reads the distance table above the diagonal
    only: two tables of one size that agree there give the same result. *)
Theorem compute_clusters_upper_triangle (graph1 graph2 : Graph) (d_max : Z) :
  length (distances graph1) = length (distances graph2) ->
  (forall i j, (i < j < length (distances graph1))%nat ->
               distances_at (distances graph1) i j
               = distances_at (distances graph2) i j) ->
  compute_clusters graph1 d_max = compute_clusters graph2 d_max.
Proof.
  intros Hlen Hup. unfold compute_clusters. rewrite <- Hlen. f_equal.
  apply for_in_range_ext. intros i c0 Hi.
  apply for_in_range_ext. intros j c1 Hj.
  rewrite Hup by lia. reflexivity.
Qed.

Lemma compute_clusters_upper_triangle_witness :
  compute_clusters {| distances := [[0; 1; 2]; [1; 0; 1]; [2; 1; 0]] |} 1
  = compute_clusters {| distances := [[7; 1; 2]; [9; 7; 1]; [9; 9; 7]] |} 1.
Proof.
  apply compute_clusters_upper_triangle; [reflexivity|].
  intros [|[|[|i]]] [|[|[|j]]] Hij; simpl in Hij; try lia; reflexivity.
Defined.

Lemma clusters_loop_sites (t : list (list Z)) (d_max : Z) (cl : list (nat * nat)) :
  for_in (range 0 (length t)) (fun i clusters0 =>
    for_in (range (i + 1) (length t)) (fun j clusters1 =>
      d <- distances_at t i j ;;
      Ok (if d <=? d_max then clusters1 ++ [(i, j)] else clusters1))
    clusters0) []
  = Ok cl ->
  Forall (fun p => (fst p < snd p < length t)%nat) cl.
Proof.
  apply (for_in_range_partial
           (fun _ c => Forall (fun p => (fst p < snd p < length t)%nat) c));
    [lia|constructor|].
  intros i c0 c1 Hi Hc0.
  apply (for_in_range_partial
           (fun _ c => Forall (fun p => (fst p < snd p < length t)%nat) c));
    [lia|exact Hc0|].
  intros j c2 c3 Hj Hc2.
  destruct (distances_at t i j) as [d|e]; simpl; [|discriminate].
  intros [= <-]. destruct (d <=? d_max); [|exact Hc2].
  apply Forall_app. split; [exact Hc2|]. repeat constructor; simpl; lia.
Qed.

Lemma ExchangeRule_graph_sites_aux (graph : Graph) (d_max : Z) (rule0 : ExchangeRule_) :
  ExchangeRule None (Some graph) d_max = Ok rule0 ->
  clusters_in_range rule0 (length (distances graph)).
Proof.
  unfold ExchangeRule, compute_clusters.
  destruct (for_in _ _ _) as [cl|e] eqn:Hrun; simpl; [|discriminate].
  intros [= <-]. apply clusters_loop_sites in Hrun.
  unfold clusters_in_range, site_in_range. simpl.
  apply Forall_fmap. eapply Forall_impl; [exact Hrun|].
  intros [a b] Hab; unfold int64_row; simpl in *; lia.
Qed.

(** X7. A rule that [ExchangeRule] builds from a graph exchanges two
    different sites of a configuration with one site per node: every row
    [(si, sj)] of its table has [0 <= si < sj < size], so the table meets
    what the exchange move needs to be a swap. *)
Theorem ExchangeRule_graph_sites (graph : Graph) (d_max : Z) (rule0 : ExchangeRule_) :
  ExchangeRule None (Some graph) d_max = Ok rule0 ->
  Forall (fun c => 0 <= fst c < snd c /\
                   snd c < Z.of_nat (length (distances graph))) (clusters rule0) /\
  clusters_in_range rule0 (length (distances graph)).
Proof.
  unfold ExchangeRule, compute_clusters.
  destruct (for_in _ _ _) as [cl|e] eqn:Hrun; simpl; [|discriminate].
  intros [= <-]. simpl. apply clusters_loop_sites in Hrun.
  unfold clusters_in_range, site_in_range. simpl.
  split; apply Forall_fmap; (eapply Forall_impl; [exact Hrun|]);
    intros [a b] Hab; unfold int64_row; simpl in *; lia.
Qed.

Lemma ExchangeRule_graph_sites_witness :
  Forall (fun c => 0 <= fst c < snd c /\ snd c < 3) [(0, 1); (1, 2)] /\
  clusters_in_range {| clusters := [(0, 1); (1, 2)] |} 3.
Proof.
  apply (ExchangeRule_graph_sites
           {| distances := [[0; 1; 2]; [1; 0; 1]; [2; 1; 0]] |} 1
           {| clusters := [(0, 1); (1, 2)] |}).
  reflexivity.
Defined.

(** X8. A larger cutoff keeps every pair of the cluster table of a
    smaller one. *)
Theorem compute_clusters_monotone (graph : Graph) (d1 d2 : Z)
    (res1 res2 : list (Z * Z)) :
  square_table (distances graph) ->
  d1 <= d2 ->
  compute_clusters graph d1 = Ok res1 ->
  compute_clusters graph d2 = Ok res2 ->
  forall c, c ∈ res1 -> c ∈ res2.
Proof.
  intros Hsq Hd.
  destruct (clusters_loop (distances graph) d1 Hsq) as (cl1 & Hrun1 & _ & Hmem1).
  destruct (clusters_loop (distances graph) d2 Hsq) as (cl2 & Hrun2 & _ & Hmem2).
  unfold compute_clusters. rewrite Hrun1, Hrun2. simpl.
  intros [= <-] [= <-] c Hc.
  apply list_elem_of_fmap in Hc as ([a b] & -> & Hin).
  apply list_elem_of_fmap_2. apply Hmem2. apply Hmem1 in Hin as (Ha & Hab & d & Hdist & Hle).
  split; [exact Ha|]. split; [exact Hab|]. exists d. split; [exact Hdist|lia].
Qed.

Lemma compute_clusters_monotone_witness :
  ((1, 2) : Z * Z) ∈ [(0, 1); (0, 2); (1, 2)].
Proof.
  apply (compute_clusters_monotone
           {| distances := [[0; 1; 2]; [1; 0; 1]; [2; 1; 0]] |} 1 2
           [(0, 1); (1, 2)] [(0, 1); (0, 2); (1, 2)]).
  - repeat constructor.
  - lia.
  - reflexivity.
  - reflexivity.
  - apply list_elem_of_In. simpl. auto.
Defined.

(** ** More on [_sample_next] *)

Lemma jnp_where_fmap {A B : Type} (f : A -> B) (c : list bool) (x y : list A) :
  jnp_where c (f <$> x) (f <$> y) = f <$> jnp_where c x y.
Proof.
  revert x y. induction c as [|b c IH]; intros [|a x] [|a' y]; try reflexivity.
  unfold jnp_where in *. simpl. rewrite IH. now destruct b.
Qed.

Section SamplerRun.
Context `{PRNG}.
Context {PyTree RuleState Rule : Type} `{!MetropolisRule PyTree RuleState Rule}.
Variable sampler : MetropolisSampler Rule.
Variable machine : Machine (PyTree := PyTree).
Variable parameters : PyTree.

(** X9. With [n_sweeps <= 0] no round is run: [_sample_next] returns the
    configurations and the accepted counter of its input (the counter as
    the int32 the scope makes of it), and still adds
    [n_sweeps * n_chains] to the attempted counter, which goes down when
    [n_sweeps] is negative. *)
Theorem sample_next_no_sweep (state : MetropolisSamplerState RuleState) :
  n_sweeps sampler <= 0 ->
  let new_state := fst (_sample_next sampler machine parameters state) in
  σ new_state = σ state /\
  snd (_sample_next sampler machine parameters state) = σ state /\
  n_accepted new_state = Int32 (counter_value (n_accepted state)) /\
  n_samples new_state = n_samples state + n_sweeps sampler * n_chains sampler /\
  (n_sweeps sampler < 0 -> 0 < n_chains sampler ->
   n_samples new_state < n_samples state).
Proof.
  intros Hs new_state. unfold new_state, _sample_next.
  replace (Z.to_nat (n_sweeps sampler)) with 0%nat by lia. simpl.
  split; [reflexivity|]. split; [reflexivity|]. split; [reflexivity|].
  split; [reflexivity|]. intros Hneg Hc. nia.
Qed.

(** X10. For a machine that scores each configuration of a batch on its
    own, the log-probabilities the sweep loop carries from round to round
    are those of the configurations it carries: selecting them with the
    accept flags is the same as scoring the selected batch again. *)
Theorem scope_log_prob_in_sync (state : MetropolisSamplerState RuleState)
    (score : PyTree -> list Z -> complex) (n : nat) :
  (forall p σ0, machine p σ0 = score p <$> σ0) ->
  let s := scope_range n (sweep_round sampler machine parameters state)
             (scope_init sampler machine parameters state) in
  s_log_prob s = log_prob_of sampler machine parameters (s_σ s).
Proof.
  intros Hrow.
  assert (Hinit : s_log_prob (scope_init sampler machine parameters state)
                  = log_prob_of sampler machine parameters
                      (s_σ (scope_init sampler machine parameters state)))
    by reflexivity.
  revert Hinit. generalize (scope_init sampler machine parameters state).
  induction n as [|n IH]; intros s0 Hs0; simpl; [exact Hs0|].
  apply IH. unfold sweep_round. cbn [s_log_prob s_σ].
  rewrite propose_log_prob, Hs0. unfold log_prob_of. rewrite !Hrow.
  now rewrite !jnp_where_fmap.
Qed.

Lemma sample_next_accepted_bounds (state : MetropolisSamplerState RuleState) :
  well_shaped sampler machine parameters state ->
  0 <= n_sweeps sampler -> 0 <= n_chains sampler ->
  -2147483648 <= counter_value (n_accepted state) ->
  counter_value (n_accepted state) + n_sweeps sampler * n_chains sampler
    <= 2147483647 ->
  counter_value (n_accepted state)
  <= counter_value (n_accepted (fst (_sample_next sampler machine parameters state)))
  <= counter_value (n_accepted state) + n_sweeps sampler * n_chains sampler.
Proof.
  intros Hw Hs Hc Hmin Hmax. unfold _sample_next. cbn [fst n_accepted counter_value].
  pose proof (accept_flags_shaped sampler machine parameters state
                (Z.to_nat (n_sweeps sampler)) _ Hw
                (scope_init_shaped sampler machine parameters state Hw)) as Hall.
  apply accept_total_bounds in Hall.
  rewrite accept_flags_length, !Z2Nat.id in Hall by assumption.
  rewrite scope_range_accepted
    by (unfold int32_range; cbn [scope_init s_accepted]; nia).
  change (s_accepted (scope_init sampler machine parameters state))
    with (counter_value (n_accepted state)).
  rewrite wrap32_in_range by (unfold int32_range; lia).
  lia.
Qed.

Lemma sample_next_batch_length (state : MetropolisSamplerState RuleState) :
  well_shaped sampler machine parameters state ->
  length (σ (fst (_sample_next sampler machine parameters state)))
  = Z.to_nat (n_chains sampler).
Proof.
  intros Hw. unfold _sample_next. cbn [fst σ].
  apply (scope_range_shaped sampler machine parameters state _ _ Hw).
  now apply scope_init_shaped.
Qed.

Lemma acceptance_percent_bounds (a b : Z) :
  0 <= a <= b -> 0 < b ->
  (0 <= inject_Z a / inject_Z b * inject_Z 100)%Q /\
  (inject_Z a / inject_Z b * inject_Z 100 <= inject_Z 100)%Q.
Proof.
  intros Hab Hb. destruct b as [|p|p]; try lia.
  unfold Qle, Qdiv, Qmult, Qinv, inject_Z. simpl. split; nia.
Qed.

(** X11. After a call of [_sample_next] that runs at least one round on at
    least one chain, from a state with [0 <= n_accepted <= n_samples]
    whose accepted counter cannot pass the largest int32 in this call,
    [__repr__] divides by a positive count and shows a rate between 0 and
    100. *)
Theorem repr_after_sample_next (state : MetropolisSamplerState RuleState) :
  well_shaped sampler machine parameters state ->
  0 < n_sweeps sampler -> 0 < n_chains sampler ->
  0 <= counter_value (n_accepted state) <= n_samples state ->
  counter_value (n_accepted state) + n_sweeps sampler * n_chains sampler
    <= 2147483647 ->
  exists q : Q,
    repr_acceptance_rate (fst (_sample_next sampler machine parameters state))
      = Ok (Finite q) /\
    (0 <= q)%Q /\ (q <= inject_Z 100)%Q.
Proof.
  intros Hw Hs Hc Hinv Hmax.
  pose proof (sample_next_accepted_bounds state Hw ltac:(lia) ltac:(lia)
                ltac:(lia) Hmax) as Hacc.
  assert (Htag : exists a,
             n_accepted (fst (_sample_next sampler machine parameters state)) = Int32 a)
    by (now eexists).
  set (new_state := fst (_sample_next sampler machine parameters state)) in *.
  assert (Hsamples : n_samples new_state
                     = n_samples state + n_sweeps sampler * n_chains sampler)
    by reflexivity.
  assert (Hpos : 0 < n_samples new_state) by nia.
  assert (Hle : 0 <= counter_value (n_accepted new_state) <= n_samples new_state) by lia.
  clearbody new_state. destruct Htag as [a Ha].
  unfold repr_acceptance_rate, jnp_truediv. rewrite Ha in *. cbn [counter_value] in Hle.
  destruct (Z.eqb_spec (n_samples new_state) 0) as [E|_]; [lia|].
  cbn [jnp_mul100]. eexists. split; [reflexivity|].
  now apply acceptance_percent_bounds.
Qed.

(** X12. [__repr__] raises exactly on the states whose accepted counter
    is a Python integer and whose [n_samples] is 0, and then
    [ZeroDivisionError]: it raises on every state that [_init_state] or
    [_reset] returns, and on no state that [_sample_next] returns, where
    the division is a JAX division (with [n_samples = 0] it gives
    not-a-number or an infinity). *)
Theorem repr_zero_division :
  (forall self : MetropolisSamplerState RuleState,
      (exists e, repr_acceptance_rate self = Raise e)
      <-> ((exists a, n_accepted self = PyInt a) /\ n_samples self = 0)) /\
  (forall (self : MetropolisSamplerState RuleState) e,
      repr_acceptance_rate self = Raise e -> e = ZeroDivisionError) /\
  (forall key st,
      _init_state sampler machine parameters key = Ok st ->
      repr_acceptance_rate st = Raise ZeroDivisionError) /\
  (forall state,
      repr_acceptance_rate (_reset sampler machine parameters state)
      = Raise ZeroDivisionError) /\
  (forall state,
      exists x, repr_acceptance_rate (fst (_sample_next sampler machine parameters state))
                = Ok x /\
                (n_samples (fst (_sample_next sampler machine parameters state)) = 0 ->
                 x = NaN \/ x = Inf \/ x = NegInf)).
Proof.
  split; [|split; [|split; [|split]]].
  - intros self. unfold repr_acceptance_rate, py_truediv.
    destruct (n_accepted self) as [a|a].
    + destruct (Z.eqb_spec (n_samples self) 0) as [E|E]; simpl.
      * split; [intros _; split; [now exists a|exact E]|]. intros _. now eexists.
      * split; [intros [e He]; discriminate|]. intros [_ E']. contradiction.
    + split; [intros [e He]; discriminate|]. intros [[a' Ha'] _]. discriminate.
  - intros self e. unfold repr_acceptance_rate, py_truediv.
    destruct (n_accepted self) as [a|a]; [|discriminate].
    destruct (n_samples self =? 0); simpl; [now intros [= <-]|discriminate].
  - intros key st. unfold _init_state.
    destruct (jnp_zeros _ _); simpl; [|discriminate]. now intros [= <-].
  - reflexivity.
  - intros state. eexists. split; [reflexivity|].
    intros E. unfold jnp_truediv. rewrite E. simpl.
    destruct (_ =? 0); [now left|]. destruct (0 <? _); auto.
Qed.

Hypothesis machine_shape : forall p σ0, length (machine p σ0) = length σ0.
Hypothesis rule_shape : forall state key σ0 σp0 corr,
  transition (rule sampler) sampler machine parameters state key σ0 = (σp0, corr) ->
  length σp0 = length σ0 /\ forall c, corr = Some c -> length c = length σ0.
Hypothesis random_state_shape : forall state key,
  length (random_state (rule sampler) sampler machine parameters state key)
  = Z.to_nat (n_chains sampler).
Hypothesis sweeps_nonneg : 0 <= n_sweeps sampler.
Hypothesis chains_nonneg : 0 <= n_chains sampler.

Lemma shapes_well_shaped (state : MetropolisSamplerState RuleState) :
  length (σ state) = Z.to_nat (n_chains sampler) ->
  well_shaped sampler machine parameters state.
Proof using machine_shape rule_shape.
  intros Hlen. split; [exact Hlen|]. split; [apply machine_shape|apply rule_shape].
Qed.

(** X13. A run that resets the sampler and then calls [_sample_next]
    [calls] times, with [calls * n_sweeps * n_chains] no more than the
    largest int32, ends with [n_samples = calls * n_sweeps * n_chains],
    with [0 <= n_accepted <= n_samples], and with a batch of [n_chains]
    configurations. *)
Theorem run_counters (state : MetropolisSamplerState RuleState) (calls : nat) :
  Z.of_nat calls * (n_sweeps sampler * n_chains sampler) <= 2147483647 ->
  let final :=
    Nat.iter calls
      (fun st => fst (_sample_next sampler machine parameters st))
      (_reset sampler machine parameters state) in
  n_samples final = Z.of_nat calls * (n_sweeps sampler * n_chains sampler) /\
  0 <= counter_value (n_accepted final) <= n_samples final /\
  length (σ final) = Z.to_nat (n_chains sampler).
Proof using machine_shape rule_shape random_state_shape sweeps_nonneg chains_nonneg.
  induction calls as [|calls IH]; intros Hmax final.
  - unfold final. simpl. split; [lia|]. split; [lia|]. apply random_state_shape.
  - assert (Hprod : 0 <= n_sweeps sampler * n_chains sampler) by nia.
    destruct IH as (Hn & Ha & Hl); [nia|].
    pose proof (shapes_well_shaped _ Hl) as Hw.
    pose proof (sample_next_accepted_bounds _ Hw sweeps_nonneg chains_nonneg) as Hb.
    pose proof (sample_next_batch_length _ Hw) as Hl'.
    unfold final. rewrite Nat.iter_succ.
    set (prev := Nat.iter calls _ _) in *.
    assert (Hs : n_samples (fst (_sample_next sampler machine parameters prev))
                 = n_samples prev + n_sweeps sampler * n_chains sampler)
      by reflexivity.
    specialize (Hb ltac:(lia) ltac:(nia)).
    split; [rewrite Hs, Hn; lia|]. split; [lia|exact Hl'].
Qed.

End SamplerRun.

(** ** The further statements on the concrete instance *)

Lemma sample_next_no_sweep_witness :
  let new_state := fst (_sample_next backward_sampler first_site_machine tt half_state) in
  σ new_state = σ half_state /\
  snd (_sample_next backward_sampler first_site_machine tt half_state) = σ half_state /\
  n_accepted new_state = Int32 (counter_value (n_accepted half_state)) /\
  n_samples new_state
    = n_samples half_state + n_sweeps backward_sampler * n_chains backward_sampler /\
  (n_sweeps backward_sampler < 0 -> 0 < n_chains backward_sampler ->
   n_samples new_state < n_samples half_state).
Proof.
  apply (sample_next_no_sweep backward_sampler first_site_machine tt half_state).
  simpl. lia.
Defined.

(** There the attempted counter falls below the accepted one. *)
Example sample_next_backward_counters :
  n_samples (fst (_sample_next backward_sampler first_site_machine tt half_state)) = -4 /\
  n_accepted (fst (_sample_next backward_sampler first_site_machine tt half_state))
    = Int32 1.
Proof. split; reflexivity. Qed.

Lemma scope_log_prob_in_sync_witness :
  let s := scope_range 3 (sweep_round chain4_sampler first_site_machine tt chain4_state)
             (scope_init chain4_sampler first_site_machine tt chain4_state) in
  s_log_prob s = log_prob_of chain4_sampler first_site_machine tt (s_σ s).
Proof.
  apply (scope_log_prob_in_sync chain4_sampler first_site_machine tt chain4_state
           (fun _ row => (jnp_getitem 0 row 0, 0)) 3).
  reflexivity.
Defined.

Lemma repr_after_sample_next_witness :
  exists q : Q,
    repr_acceptance_rate
      (fst (_sample_next chain4_sampler first_site_machine tt chain4_state))
      = Ok (Finite q) /\
    (0 <= q)%Q /\ (q <= inject_Z 100)%Q.
Proof.
  apply (repr_after_sample_next chain4_sampler first_site_machine tt chain4_state).
  - exact chain4_well_shaped.
  - simpl. lia.
  - simpl. lia.
  - simpl. lia.
  - simpl. lia.
Defined.

(** After the first call on the four-site chain the rate shown is 87.5. *)
Example repr_after_first_call :
  repr_acceptance_rate
    (fst (_sample_next chain4_sampler first_site_machine tt chain4_state))
  = Ok (Finite (700 # 8)%Q).
Proof. reflexivity. Qed.

Lemma chain4_rule_shape (state : @MetropolisSamplerState fixed_numeric lcg_prng unit)
    (key : @PRNGKey fixed_numeric lcg_prng) (σ0 σp0 : Batch)
    (corr : option (list (@real fixed_numeric))) :
  transition (rule chain4_sampler) chain4_sampler first_site_machine tt state key σ0
    = (σp0, corr) ->
  length σp0 = length σ0 /\ forall c, corr = Some c -> length c = length σ0.
Proof.
  simpl. unfold ExchangeRule_transition. intros [= <- <-]. split; [|discriminate].
  rewrite length_zip_with, length_fmap, length_seq. lia.
Qed.

Lemma run_counters_witness :
  let final :=
    Nat.iter 2
      (fun st => fst (_sample_next chain4_sampler first_site_machine tt st))
      (_reset chain4_sampler first_site_machine tt half_state) in
  n_samples final = Z.of_nat 2 * (n_sweeps chain4_sampler * n_chains chain4_sampler) /\
  0 <= counter_value (n_accepted final) <= n_samples final /\
  length (σ final) = Z.to_nat (n_chains chain4_sampler).
Proof.
  apply (run_counters chain4_sampler first_site_machine tt).
  - exact first_site_machine_shape.
  - exact chain4_rule_shape.
  - intros state key. reflexivity.
  - simpl. lia.
  - simpl. lia.
  - simpl. lia.
Defined.

(** ** From the graph to the run *)

(** X14. A sampler whose Exchange rule was built from a graph, on
    configurations with one site per node, keeps the sum of every chain
    over any number of calls of [_sample_next]. *)
Theorem graph_exchange_conservation `{PRNG} {PyTree RuleState : Type}
    (sampler : MetropolisSampler ExchangeRule_)
    (machine : Machine (PyTree := PyTree)) (parameters : PyTree)
    (graph : Graph) (d_max : Z)
    (state : MetropolisSamplerState RuleState) (calls : nat) :
  ExchangeRule None (Some graph) d_max = Ok (rule sampler) ->
  clusters (rule sampler) <> [] ->
  (forall p σ0, length (machine p σ0) = length σ0) ->
  length (σ state) = Z.to_nat (n_chains sampler) ->
  Forall (fun row => length row = length (distances graph)) (σ state) ->
  jnp_sum <$> σ (Nat.iter calls
                   (fun st => fst (_sample_next sampler machine parameters st))
                   state)
  = jnp_sum <$> σ state.
Proof.
  intros Hrule Hne Hm Hlen Hrows.
  apply ExchangeRule_graph_sites_aux in Hrule.
  apply Forall2_perm_sums.
  now apply (exchange_run_perm sampler machine parameters
               (length (distances graph)) Hne Hrule Hm state calls).
Qed.

Lemma graph_exchange_conservation_witness :
  jnp_sum <$> σ (Nat.iter 3
                   (fun st => fst (_sample_next chain4_sampler first_site_machine tt st))
                   chain4_state)
  = jnp_sum <$> σ chain4_state.
Proof.
  apply (graph_exchange_conservation chain4_sampler first_site_machine tt
           {| distances := [[0; 1; 2; 3]; [1; 0; 1; 2]; [2; 1; 0; 1]; [3; 2; 1; 0]] |}
           1 chain4_state 3).
  - reflexivity.
  - discriminate.
  - exact first_site_machine_shape.
  - reflexivity.
  - repeat constructor.
Defined.

(** ** The size of the cluster table *)

(** X15. The cluster table has at most [size * (size - 1) / 2] rows. *)
Theorem compute_clusters_length (graph : Graph) (d_max : Z) (res : list (Z * Z)) :
  compute_clusters graph d_max = Ok res ->
  2 * Z.of_nat (length res)
  <= Z.of_nat (length (distances graph)) * (Z.of_nat (length (distances graph)) - 1).
Proof.
  unfold compute_clusters.
  set (n := length (distances graph)).
  destruct (for_in _ _ _) as [cl|e] eqn:Hrun; simpl; [|discriminate].
  intros [= <-]. rewrite length_fmap.
  enough (Hinv : (n <= n)%nat /\
                 2 * Z.of_nat (length cl)
                 <= 2 * Z.of_nat n * (Z.of_nat n - 1) - Z.of_nat n * (Z.of_nat n - 1))
    by lia.
  revert Hrun.
  apply (for_in_range_partial
           (fun i c => (i <= n)%nat /\
                       2 * Z.of_nat (length c)
                       <= 2 * Z.of_nat i * (Z.of_nat n - 1)
                          - Z.of_nat i * (Z.of_nat i - 1)));
    [lia|simpl; lia|].
  intros i c0 c1 Hi [_ Hc0] Hin.
  enough (Hinner : (n <= n)%nat /\
                   2 * Z.of_nat (length c1)
                   <= 2 * Z.of_nat i * (Z.of_nat n - 1)
                      - Z.of_nat i * (Z.of_nat i - 1)
                      + 2 * (Z.of_nat n - Z.of_nat i - 1))
    by (split; [lia|nia]).
  revert Hin.
  apply (for_in_range_partial
           (fun j c => (j <= n)%nat /\
                       2 * Z.of_nat (length c)
                       <= 2 * Z.of_nat i * (Z.of_nat n - 1)
                          - Z.of_nat i * (Z.of_nat i - 1)
                          + 2 * (Z.of_nat j - Z.of_nat i - 1)));
    [lia|split; [lia|lia]|].
  intros j c2 c3 Hj [_ Hc2].
  destruct (distances_at (distances graph) i j) as [d|e]; simpl; [|discriminate].
  intros [= <-]. split; [lia|].
  destruct (d <=? d_max); [rewrite length_app; simpl|]; lia.
Qed.

Lemma compute_clusters_length_witness :
  2 * Z.of_nat (length [(0, 1); (1, 2)]) <= Z.of_nat 3 * (Z.of_nat 3 - 1).
Proof.
  apply (compute_clusters_length
           {| distances := [[0; 1; 2]; [1; 0; 1]; [2; 1; 0]] |} 1 [(0, 1); (1, 2)]).
  reflexivity.
Defined.
